(** * SkSL::Pool — thread-bound front end of the SkSL memory pool

    Shallow embedding of [src/third_party/skia/src/sksl/SkSLPool.cpp] and the
    properties of its lifecycle and routing protocol.

    The translation unit keeps one [thread_local] pointer, [sMemPool], and
    routes [Pool::AllocMemory] / [Pool::FreeMemory] either to the
    [MemoryPool] that pointer designates or to [::operator new] /
    [::operator delete].  The file has two compile-time variants of the slot
    accessors.  [Module SkSL] embeds the [#if !defined(STARBOARD)] variant (a
    plain [thread_local] variable) and everything below the accessors, which
    is common to both.  [Module Starboard] embeds the accessors of the
    STARBOARD variant, which keep the same pointer under a Starboard
    thread-local key; they are shown to behave as the [thread_local]
    variable does, given what Starboard's storage guarantees.

    Conventions.
    - A pointer is an address in [N]; [nullptr] is address [0].
    - [size_t] values are only passed along, never computed with; they are
      kept in [N].
    - Every function that reads or writes the thread-local takes the calling
      thread as its first argument.
    - [VLOG] expands to nothing in the source and is therefore absent. *)

From stdpp Require Import base numbers option list strings gmap.

Local Open Scope N_scope.

Module SkSL.

(** ** Collaborators that live outside this translation unit *)

(** [MemoryPool] is declared outside this file and used through six entry
    points.  Its representation is abstract; every entry point is a function
    of the pool's state. *)
Class MemoryPool (A : Type) := {
  (** [MemoryPool::Make(preallocSize, minAllocSize)]: the state of a newly
      made pool. *)
  Make : N → N → A;
  allocate : N → A → N * A;
  release : N → A → A;
  resetScratchSpace : A → A;
  reportLeaks : A → A;
  isEmpty : A → bool;
  (** Modelled from the spec: the pool's bookkeeping of live allocations
      ("tracks live-allocation bookkeeping sufficient to answer is anything
      still outstanding"); [MemoryPool]'s own code is not part of the
      sources. *)
  outstanding : A → gset N;
  (** Modelled from the spec: resetting scratch space is "a housekeeping
      reset, not a free-all"; live allocations stay as they are. *)
  resetScratchSpace_outstanding a :
    outstanding (resetScratchSpace a) = outstanding a
}.

(** The general-purpose allocator behind [::operator new] and
    [::operator delete]. *)
Class SystemAllocator (S : Type) := {
  operator_new : N → S → N * S;
  operator_delete : N → S → S
}.

(** [sizeof(Pool)].  The class is declared in [SkSLPool.h], outside the
    sources; the size of its objects is a parameter. *)
Class PoolLayout := { sizeof_Pool : N }.

Definition nullptr : N := 0.

(** ** Observable actions, in program order *)

Inductive arena_call :=
  | Allocate (size : N)
  | Release (p : N)
  | ResetScratchSpace
  | ReportLeaks
  | IsEmpty.

Inductive event :=
  | EvMake (preallocSize minAllocSize : N) (arena : N)
  | EvArena (arena : N) (c : arena_call)
  | EvArenaDelete (arena : N)
  | EvNew (size : N) (p : N)
  | EvDelete (p : N)
  | EvSlotWrite (t : nat) (memPool : N)
  | EvDebugFail (msg : string).

Global Instance arena_call_eq_dec : EqDecision arena_call.
Proof. solve_decision. Defined.
Global Instance event_eq_dec : EqDecision event.
Proof. solve_decision. Defined.

(** [class Pool] has a single data member, [std::unique_ptr<MemoryPool>
    fMemPool]; the handle is identified with the address it owns. *)
Record Pool := MkPool { fMemPool : N }.

Global Instance Pool_eq_dec : EqDecision Pool.
Proof. solve_decision. Defined.

Section Model.
Context {A S : Type} `{!MemoryPool A} `{!SystemAllocator S} `{!PoolLayout}.

(** ** Program state

    - [sMemPool]: the [thread_local] variable, one value per thread.  A
      thread without an entry still has the initializer, [nullptr].
    - [arenas]: the [MemoryPool] objects currently alive, by address.
    - [sysheap]: the state of the general-purpose allocator.
    - [trace]: the actions performed so far, oldest first. *)
Record world := World {
  sMemPool : gmap nat N;
  arenas : gmap N A;
  sysheap : S;
  trace : list event
}.

Definition emit (e : event) (w : world) : world :=
  World (sMemPool w) (arenas w) (sysheap w) (trace w ++ [e]).

(** A call either returns, stops the process on a failed assertion, or
    has no defined behaviour (a member call through a pointer to no live
    [MemoryPool]). *)
Inductive outcome (R : Type) :=
  | Done (r : R) (w : world)
  | Fatal (msg : string) (w : world)
  | Undefined.
Global Arguments Done {R} r w.
Global Arguments Fatal {R} msg w.
Global Arguments Undefined {R}.

Definition M (R : Type) : Type := world → outcome R.

Definition ret {R} (r : R) : M R := λ w, Done r w.

Definition bind {R T} (m : M R) (k : R → M T) : M T := λ w,
  match m w with
  | Done r w' => k r w'
  | Fatal msg w' => Fatal msg w'
  | Undefined => Undefined
  end.

Global Instance M_ret : MRet M := @ret.
Global Instance M_bind : MBind M := λ R T k m, bind m k.

(** The world an outcome leaves behind, when there is one. *)
Definition final {R} (o : outcome R) : option world :=
  match o with
  | Done _ w | Fatal _ w => Some w
  | Undefined => None
  end.

(** ** Assertion macros (defined in headers that are not part of the sources) *)

(** Modelled from the spec: a failed [SkASSERT] is "a fatal assertion";
    execution does not continue past it. *)
Definition SkASSERT (cond : string) (holds : bool) : M unit := λ w,
  if holds then Done () w else Fatal cond w.

(** Modelled from the spec: [SkDEBUGFAIL] "surfaces a diagnostic" and the
    caller carries on ("force-detaches, continues"). *)
Definition SkDEBUGFAIL (msg : string) : M unit := λ w,
  Done () (emit (EvDebugFail msg) w).

(** ** The thread-local slot (lines 22-30) *)

Definition slot (t : nat) (w : world) : N := default nullptr (sMemPool w !! t).

Definition get_thread_local_memory_pool (t : nat) : M N := λ w,
  Done (slot t w) w.

Definition set_thread_local_memory_pool (t : nat) (memPool : N) : M unit := λ w,
  Done () (World (<[t := memPool]> (sMemPool w)) (arenas w) (sysheap w)
                 (trace w ++ [EvSlotWrite t memPool])).

(** ** Calls into collaborators *)

(** [memPool->f(...)]: a member call on the [MemoryPool] at address
    [memPool]. *)
Definition member_call {R} (memPool : N) (c : arena_call) (f : A → R * A)
    : M R := λ w,
  match arenas w !! memPool with
  | Some a =>
      let '(r, a') := f a in
      Done r (World (sMemPool w) (<[memPool := a']> (arenas w)) (sysheap w)
                    (trace w ++ [EvArena memPool c]))
  | None => Undefined
  end.

(** The address of a newly created [MemoryPool]: not null and not the
    address of a pool that is alive. *)
Definition fresh_address (h : gmap N A) : N :=
  N.succ (map_fold (λ k _ acc, N.max k acc) 0 h).

Definition MemoryPool_Make (preallocSize minAllocSize : N) : M N := λ w,
  let p := fresh_address (arenas w) in
  Done p (World (sMemPool w) (<[p := Make preallocSize minAllocSize]> (arenas w))
                (sysheap w)
                (trace w ++ [EvMake preallocSize minAllocSize p])).

(** Destruction of the [std::unique_ptr<MemoryPool>] member. *)
Definition MemoryPool_delete (memPool : N) : M unit := λ w,
  Done () (World (sMemPool w) (delete memPool (arenas w)) (sysheap w)
                 (trace w ++ [EvArenaDelete memPool])).

Definition global_operator_new (size : N) : M N := λ w,
  let '(p, s') := operator_new size (sysheap w) in
  Done p (World (sMemPool w) (arenas w) s' (trace w ++ [EvNew size p])).

Definition global_operator_delete (p : N) : M unit := λ w,
  Done () (World (sMemPool w) (arenas w) (operator_delete p (sysheap w))
                 (trace w ++ [EvDelete p])).

(** ** class Pool *)

(** [Pool::~Pool()] (lines 58-68), followed by the destruction of the
    member [fMemPool]. *)
Definition Pool_dtor (t : nat) (this : Pool) : M unit :=
  cur ← get_thread_local_memory_pool t;
  (if cur =? fMemPool this then
     SkDEBUGFAIL "SkSL pool is being destroyed while it is still attached to the thread";;
     set_thread_local_memory_pool t nullptr
   else mret ());;
  member_call (fMemPool this) ReportLeaks (λ a, ((), reportLeaks a));;
  empty ← member_call (fMemPool this) IsEmpty (λ a, (isEmpty a, a));
  SkASSERT "fMemPool->isEmpty()" empty;;
  MemoryPool_delete (fMemPool this).

(** [Pool::Create()] (lines 70-75).  [new Pool] takes the storage of the
    object from [::operator new(sizeof(Pool))] and constructs it with no
    pool yet; the object then receives the pool [MemoryPool::Make] returns.
    The handle is identified with the pool it owns, so the address of the
    object appears in the record of actions only. *)
Definition Pool_Create : M Pool :=
  storage ← global_operator_new sizeof_Pool;
  let pool := MkPool nullptr in
  p ← MemoryPool_Make 65536 32768;
  let pool := MkPool p in
  mret pool.

(** [Pool::IsAttached()] (lines 77-79): the pointer converted to [bool]. *)
Definition Pool_IsAttached (t : nat) : M bool :=
  memPool ← get_thread_local_memory_pool t;
  mret (negb (memPool =? nullptr)).

(** [Pool::attachToThread()] (lines 81-85). *)
Definition Pool_attachToThread (t : nat) (this : Pool) : M unit :=
  cur ← get_thread_local_memory_pool t;
  SkASSERT "get_thread_local_memory_pool() == nullptr" (cur =? nullptr);;
  set_thread_local_memory_pool t (fMemPool this).

(** [Pool::detachFromThread()] (lines 87-93). *)
Definition Pool_detachFromThread (t : nat) (this : Pool) : M unit :=
  memPool ← get_thread_local_memory_pool t;
  SkASSERT "memPool == fMemPool.get()" (memPool =? fMemPool this);;
  member_call memPool ResetScratchSpace (λ a, ((), resetScratchSpace a));;
  set_thread_local_memory_pool t nullptr.

(** [Pool::AllocMemory(size_t)] (lines 95-108). *)
Definition Pool_AllocMemory (t : nat) (size : N) : M N :=
  memPool ← get_thread_local_memory_pool t;
  if negb (memPool =? nullptr) then
    ptr ← member_call memPool (Allocate size) (allocate size);
    mret ptr
  else
    ptr ← global_operator_new size;
    mret ptr.

(** [Pool::FreeMemory(void* )] (lines 110-122). *)
Definition Pool_FreeMemory (t : nat) (ptr : N) : M unit :=
  memPool ← get_thread_local_memory_pool t;
  if negb (memPool =? nullptr) then
    member_call memPool (Release ptr) (λ a, ((), release ptr a));;
    mret ()
  else
    global_operator_delete ptr.

(** ** Sequences of calls

    A client drives the component through its public entry points, each
    issued by some thread. *)
Inductive request :=
  | ReqCreate
  | ReqAttach (h : Pool)
  | ReqDetach (h : Pool)
  | ReqDestroy (h : Pool)
  | ReqIsAttached
  | ReqAllocMemory (size : N)
  | ReqFreeMemory (ptr : N).

Inductive reply :=
  | RepUnit
  | RepPool (h : Pool)
  | RepBool (b : bool)
  | RepPtr (p : N).

Definition run (t : nat) (c : request) : M reply :=
  match c with
  | ReqCreate => h ← Pool_Create; mret (RepPool h)
  | ReqAttach h => Pool_attachToThread t h;; mret RepUnit
  | ReqDetach h => Pool_detachFromThread t h;; mret RepUnit
  | ReqDestroy h => Pool_dtor t h;; mret RepUnit
  | ReqIsAttached => b ← Pool_IsAttached t; mret (RepBool b)
  | ReqAllocMemory size => p ← Pool_AllocMemory t size; mret (RepPtr p)
  | ReqFreeMemory ptr => Pool_FreeMemory t ptr;; mret RepUnit
  end.

(** A handle can be used from its creation to its destruction, that is,
    while the [MemoryPool] it owns is alive. *)
Definition handle_live (w : world) (h : Pool) : Prop :=
  is_Some (arenas w !! fMemPool h).

Definition request_handle (c : request) : option Pool :=
  match c with
  | ReqAttach h | ReqDetach h | ReqDestroy h => Some h
  | _ => None
  end.

Definition request_ok (w : world) (c : request) : Prop :=
  match request_handle c with
  | Some h => handle_live w h
  | None => True
  end.

(** Program start: no thread has written its slot, no pool exists. *)
Definition init (s : S) : world := World ∅ ∅ s [].

Inductive reachable : world → Prop :=
  | reachable_init s : reachable (init s)
  | reachable_step w t c v w' :
      reachable w → request_ok w c → run t c w = Done v w' → reachable w'.

(** Slot writes among a list of actions. *)
Definition is_slot_write (e : event) : bool :=
  match e with EvSlotWrite _ _ => true | _ => false end.

(** Actions on a [MemoryPool] among a list of actions. *)
Definition is_arena_event (e : event) : bool :=
  match e with
  | EvMake _ _ _ | EvArena _ _ | EvArenaDelete _ => true
  | _ => false
  end.

(** The values thread [t] has written to its slot, oldest first. *)
Definition slot_writes (t : nat) (tr : list event) : list N :=
  omap (λ e, match e with
             | EvSlotWrite t' v => if decide (t' = t) then Some v else None
             | _ => None
             end) tr.

(** A list of pointers that is a pool, null, a pool, null, ... when
    [bound] is [true], and null, a pool, ... when it is [false]. *)
Fixpoint alternates (bound : bool) (l : list N) : bool :=
  match l with
  | [] => true
  | v :: l' =>
      (if bound then negb (v =? nullptr) else v =? nullptr)
      && alternates (negb bound) l'
  end.

(** Requests that go through the static entry points, which take no
    handle. *)
Definition is_static_request (c : request) : bool :=
  match c with
  | ReqIsAttached | ReqAllocMemory _ | ReqFreeMemory _ => true
  | _ => false
  end.

(** Requests that move memory. *)
Definition is_memory_request (c : request) : bool :=
  match c with
  | ReqAllocMemory _ | ReqFreeMemory _ => true
  | _ => false
  end.

(** A client issuing requests one after the other, each from some thread;
    it stops at the first request that does not return. *)
Fixpoint run_all (cs : list (nat * request)) : M (list reply) :=
  match cs with
  | [] => mret []
  | (t, c) :: cs' => r ← run t c; rs ← run_all cs'; mret (r :: rs)
  end.

(** A series of writes to the slot, each from some thread. *)
Fixpoint write_all (ws : list (nat * N)) : M unit :=
  match ws with
  | [] => mret ()
  | (t, memPool) :: ws' =>
      set_thread_local_memory_pool t memPool;; write_all ws'
  end.

End Model.

Global Arguments world : clear implicits.
Global Arguments outcome : clear implicits.

End SkSL.

Import SkSL.

(** * The STARBOARD variant of the slot accessors (lines 32-55)

    Under [STARBOARD] the pointer lives in Starboard's thread-local storage
    under a key that is created on the first write. *)
Module Starboard.

(** Starboard's thread API (starboard/thread.h) is outside the sources: the
    state of its thread-local storage and the four entry points used here
    are parameters.  [SbThreadGetLocalValue] and [SbThreadSetLocalValue] act
    on the calling thread, given as an explicit argument. *)
Class SbThread (T : Type) := {
  kSbThreadLocalKeyInvalid : N;
  SbThreadIsValidLocalKey : N → bool;
  SbThreadCreateLocalKey : T → N * T;
  SbThreadGetLocalValue : N → nat → T → N;
  SbThreadSetLocalValue : N → N → nat → T → T
}.

Section Accessors.
Context {T : Type} `{!SbThread T}.

(** The file-scope variables [s_once_flag] and [s_thread_local_key], and
    Starboard's storage. *)
Record state := State {
  s_once_flag : bool;
  s_thread_local_key : N;
  storage : T
}.

(** Start of the program: [PTHREAD_ONCE_INIT], [kSbThreadLocalKeyInvalid]. *)
Definition start (σ : T) : state := State false kSbThreadLocalKeyInvalid σ.

(** [None] stands for a failed [SkASSERT]. *)
Definition InitThreadLocalKey (t : nat) (st : state) : option state :=
  let '(key, σ) := SbThreadCreateLocalKey (storage st) in
  if SbThreadIsValidLocalKey key then
    Some (State (s_once_flag st) key (SbThreadSetLocalValue key nullptr t σ))
  else None.

(** [pthread_once] runs the initializer on the first call only. *)
Definition EnsureThreadLocalKeyInited (t : nat) (st : state) : option state :=
  st' ← (if s_once_flag st then Some st
         else InitThreadLocalKey t
                (State true (s_thread_local_key st) (storage st)));
  if SbThreadIsValidLocalKey (s_thread_local_key st') then Some st' else None.

Definition get_thread_local_memory_pool (t : nat) (st : state) : N :=
  SbThreadGetLocalValue (s_thread_local_key st) t (storage st).

Definition set_thread_local_memory_pool (t : nat) (memPool : N) (st : state)
    : option state :=
  st' ← EnsureThreadLocalKeyInited t st;
  Some (State (s_once_flag st') (s_thread_local_key st')
              (SbThreadSetLocalValue (s_thread_local_key st') memPool t
                                     (storage st'))).

(** Before the first write the key is still the invalid one. *)
Definition key_pending (st : state) : Prop :=
  s_once_flag st = false →
  SbThreadIsValidLocalKey (s_thread_local_key st) = false.

(** A series of writes to the slot, each from some thread; [None] as soon
    as one of them fails its assertion. *)
Fixpoint write_all (ws : list (nat * N)) (st : state) : option state :=
  match ws with
  | [] => Some st
  | (t, memPool) :: ws' =>
      st' ← set_thread_local_memory_pool t memPool st; write_all ws' st'
  end.

End Accessors.

Global Arguments state : clear implicits.

End Starboard.

(** * A reference configuration

    A bump-pointer pool and a counting system allocator, small enough to
    run the model on concrete call sequences. *)
Module Reference.

Record bump_pool := BumpPool {
  bp_preallocSize : N;
  bp_minAllocSize : N;
  bp_top : N;             (* bytes handed out so far *)
  bp_live : list N;       (* blocks handed out and not yet released *)
  bp_scratch : bool       (* scratch space in use *)
}.

Definition bump_base : N := 4096.

Definition bump_allocate (size : N) (a : bump_pool) : N * bump_pool :=
  let p := bump_base + bp_top a in
  (p, BumpPool (bp_preallocSize a) (bp_minAllocSize a)
               (bp_top a + N.max size 1) (p :: bp_live a) true).

Definition bump_release (p : N) (a : bump_pool) : bump_pool :=
  BumpPool (bp_preallocSize a) (bp_minAllocSize a) (bp_top a)
           (filter (λ q, q ≠ p) (bp_live a)) (bp_scratch a).

Definition bump_resetScratchSpace (a : bump_pool) : bump_pool :=
  BumpPool (bp_preallocSize a) (bp_minAllocSize a) (bp_top a) (bp_live a) false.

Definition bump_isEmpty (a : bump_pool) : bool :=
  match bp_live a with [] => true | _ => false end.

Definition bump_outstanding (a : bump_pool) : gset N := list_to_set (bp_live a).

#[export] Instance bump_MemoryPool : MemoryPool bump_pool := {|
  Make pre min := BumpPool pre min 0 [] false;
  allocate := bump_allocate;
  release := bump_release;
  resetScratchSpace := bump_resetScratchSpace;
  reportLeaks a := a;
  isEmpty := bump_isEmpty;
  outstanding := bump_outstanding;
  resetScratchSpace_outstanding := λ a, eq_refl
|}.

(** The system allocator: blocks are carved from address [2^20] upwards;
    the state is the number of bytes handed out and the blocks in use. *)
Record sys_heap := SysHeap { sh_top : N; sh_live : list N }.

Definition sys_base : N := 1048576.

#[export] Instance counting_SystemAllocator : SystemAllocator sys_heap := {|
  operator_new size s :=
    let p := sys_base + sh_top s in
    (p, SysHeap (sh_top s + N.max size 1) (p :: sh_live s));
  operator_delete p s := SysHeap (sh_top s) (filter (λ q, q ≠ p) (sh_live s))
|}.

(** Objects of [class Pool] hold one pointer. *)
#[export] Instance pointer_PoolLayout : PoolLayout := {| sizeof_Pool := 8 |}.

(** Thread-local storage in the manner of Starboard: keys are handed out
    from 1 upwards, 0 is the invalid key, and a value is stored per key and
    thread. *)
Record sb_storage := SbStorage { sb_keys : N; sb_values : gmap (N * nat) N }.

#[export] Instance table_SbThread : Starboard.SbThread sb_storage := {|
  Starboard.kSbThreadLocalKeyInvalid := 0;
  Starboard.SbThreadIsValidLocalKey key := negb (key =? 0);
  Starboard.SbThreadCreateLocalKey σ :=
    let key := N.succ (sb_keys σ) in
    (key, SbStorage key (filter (λ kv, kv.1.1 ≠ key) (sb_values σ)));
  Starboard.SbThreadGetLocalValue key t σ :=
    if key =? 0 then 0 else default 0 (sb_values σ !! (key, t));
  Starboard.SbThreadSetLocalValue key value t σ :=
    if key =? 0 then σ
    else SbStorage (sb_keys σ) (<[(key, t) := value]> (sb_values σ))
|}.

(** Concrete states of a short run: program start; after [Pool::Create()];
    after thread 1 attached the handle; after thread 2 attached it as well;
    after thread 1 destroyed the handle it still had attached. *)
Definition w0 : world bump_pool sys_heap := init (SysHeap 0 []).

Definition pool0 : bump_pool := Make 65536 32768.

Definition h1 : Pool := MkPool 1.

Definition w_created : world bump_pool sys_heap :=
  World ∅ {[1 := pool0]} (SysHeap 8 [1048576])
        [EvNew 8 1048576; EvMake 65536 32768 1].

Definition w_attached : world bump_pool sys_heap :=
  World {[1%nat := 1]} {[1 := pool0]} (SysHeap 8 [1048576])
        [EvNew 8 1048576; EvMake 65536 32768 1; EvSlotWrite 1 1].

Definition w_shared : world bump_pool sys_heap :=
  World {[2%nat := 1; 1%nat := 1]} {[1 := pool0]} (SysHeap 8 [1048576])
        [EvNew 8 1048576; EvMake 65536 32768 1; EvSlotWrite 1 1;
         EvSlotWrite 2 1].

Definition w_destroyed : world bump_pool sys_heap :=
  World {[1%nat := 0]} ∅ (SysHeap 8 [1048576])
        [EvNew 8 1048576; EvMake 65536 32768 1; EvSlotWrite 1 1;
         EvDebugFail "SkSL pool is being destroyed while it is still attached to the thread";
         EvSlotWrite 1 0;
         EvArena 1 ReportLeaks; EvArena 1 IsEmpty; EvArenaDelete 1].

End Reference.

(** * Properties *)

Section Properties.
Context {A S : Type} `{!MemoryPool A} `{!SystemAllocator S} `{!PoolLayout}.
Implicit Types (w : world A S) (t : nat) (this h : Pool).

(** Unfolding of the monad and of the primitive actions. *)
Ltac unfold_M :=
  unfold mbind, M_bind, bind, mret, M_ret, ret,
    get_thread_local_memory_pool, set_thread_local_memory_pool,
    member_call, global_operator_new, global_operator_delete,
    MemoryPool_Make, MemoryPool_delete, SkASSERT, SkDEBUGFAIL, emit in *.

(** Inversion of an equation between outcomes. *)
Ltac done_inv :=
  let H := fresh in intros H; inversion H; subst; clear H; simpl.

(** ** The slot as a function of the thread *)

Lemma slot_write_same t v (m : gmap nat N) (ar : gmap N A) (s : S) tr :
  slot t (World (<[t := v]> m) ar s tr) = v.
Proof. unfold slot; simpl. by rewrite lookup_insert_eq. Qed.

Lemma slot_write_other t t' v (m : gmap nat N) (ar : gmap N A) (s : S) tr tr' :
  t' ≠ t →
  slot t' (World (<[t := v]> m) ar s tr) = slot t' (World m ar s tr').
Proof. intros Hne. unfold slot; simpl. by rewrite lookup_insert_ne. Qed.

Lemma slot_frame t w (ar : gmap N A) (s : S) tr :
  slot t (World (sMemPool w) ar s tr) = slot t w.
Proof. reflexivity. Qed.

(** ** Addresses of new pools *)

Lemma fresh_address_bound (m : gmap N A) k :
  is_Some (m !! k) → k ≤ map_fold (λ k _ acc, N.max k acc) 0 m.
Proof.
  revert k.
  apply (map_fold_weak_ind
           (λ r (m : gmap N A), ∀ k, is_Some (m !! k) → k ≤ r)).
  - intros k [x Hx]. by rewrite lookup_empty in Hx.
  - intros i x m' r Hi IH k Hk.
    destruct (decide (k = i)) as [->|Hne]; [lia|].
    rewrite lookup_insert_ne in Hk by done.
    specialize (IH k Hk). lia.
Qed.

Lemma fresh_address_unused (m : gmap N A) : m !! fresh_address m = None.
Proof.
  destruct (m !! fresh_address m) eqn:E; [|done].
  assert (Hle := fresh_address_bound m (fresh_address m) (mk_is_Some _ _ E)).
  unfold fresh_address in Hle. lia.
Qed.

Lemma fresh_address_not_null (m : gmap N A) : fresh_address m ≠ nullptr.
Proof. unfold fresh_address, nullptr. lia. Qed.

(** ** [Create], step by step *)

Lemma Pool_Create_unfold w :
  Pool_Create w =
    Done (MkPool (fresh_address (arenas w)))
         (World (sMemPool w)
                (<[fresh_address (arenas w) := Make 65536 32768]> (arenas w))
                (operator_new sizeof_Pool (sysheap w)).2
                (trace w ++
                 [EvNew sizeof_Pool (operator_new sizeof_Pool (sysheap w)).1;
                  EvMake 65536 32768 (fresh_address (arenas w))])).
Proof.
  unfold Pool_Create. unfold_M.
  destruct (operator_new sizeof_Pool (sysheap w)) as [storage s']. simpl.
  by rewrite <- app_assoc.
Qed.

(** ** The destructor, step by step *)

Lemma Pool_dtor_unfold t this w a :
  arenas w !! fMemPool this = Some a →
  let p := fMemPool this in
  let w1 :=
    if slot t w =? p then
      World (<[t := nullptr]> (sMemPool w)) (arenas w) (sysheap w)
            (trace w ++ [EvDebugFail "SkSL pool is being destroyed while it is still attached to the thread";
                         EvSlotWrite t nullptr])
    else w in
  let ar := <[p := reportLeaks a]> (arenas w) in
  let tr := trace w1 ++ [EvArena p ReportLeaks; EvArena p IsEmpty] in
  Pool_dtor t this w =
    if isEmpty (reportLeaks a) then
      Done () (World (sMemPool w1) (delete p (arenas w)) (sysheap w)
                     (tr ++ [EvArenaDelete p]))
    else
      Fatal "fMemPool->isEmpty()" (World (sMemPool w1) ar (sysheap w) tr).
Proof.
  intros Ha. simpl. unfold Pool_dtor. unfold_M.
  destruct (slot t w =? fMemPool this) eqn:E; simpl; rewrite Ha; simpl;
    rewrite lookup_insert_eq; simpl; rewrite insert_insert_eq;
    destruct (isEmpty (reportLeaks a)); simpl;
    rewrite <- ?app_assoc; simpl; rewrite ?delete_insert_eq; reflexivity.
Qed.

(** ** Calls that only read the slot *)

Lemma AllocMemory_final t size w w' :
  final (Pool_AllocMemory t size w) = Some w' →
  sMemPool w' = sMemPool w ∧
  filter is_slot_write (trace w') = filter is_slot_write (trace w).
Proof.
  unfold Pool_AllocMemory. unfold_M.
  destruct (slot t w =? nullptr); simpl.
  - destruct (operator_new size (sysheap w)) as [p s']. simpl.
    intros [= <-]. simpl.
    split; [done|]. rewrite filter_app. simpl. by rewrite app_nil_r.
  - destruct (arenas w !! slot t w) as [a|]; simpl; [|discriminate].
    destruct (allocate size a) as [p a']. simpl.
    intros [= <-]. simpl.
    split; [done|]. rewrite filter_app. simpl. by rewrite app_nil_r.
Qed.

Lemma FreeMemory_final t ptr w w' :
  final (Pool_FreeMemory t ptr w) = Some w' →
  sMemPool w' = sMemPool w ∧
  filter is_slot_write (trace w') = filter is_slot_write (trace w).
Proof.
  unfold Pool_FreeMemory. unfold_M.
  destruct (slot t w =? nullptr); simpl.
  - intros [= <-]. simpl.
    split; [done|]. rewrite filter_app. simpl. by rewrite app_nil_r.
  - destruct (arenas w !! slot t w) as [a|]; simpl; [|discriminate].
    intros [= <-]. simpl.
    split; [done|]. rewrite filter_app. simpl. by rewrite app_nil_r.
Qed.

Lemma final_then_ret {R} (m : M R) (f : R → reply) w :
  final ((x ← m; mret (f x)) w) = final (m w).
Proof. unfold_M. by destruct (m w). Qed.

Lemma done_then_ret {R} (m : M R) (f : R → reply) w v w' :
  (x ← m; mret (f x)) w = Done v w' → ∃ r, m w = Done r w' ∧ v = f r.
Proof. unfold_M. destruct (m w); intros [= <- <-] || intros [=]; eauto. Qed.

Lemma final_run t c w :
  final (run t c w) =
    match c with
    | ReqCreate => final (Pool_Create w)
    | ReqAttach h => final (Pool_attachToThread t h w)
    | ReqDetach h => final (Pool_detachFromThread t h w)
    | ReqDestroy h => final (Pool_dtor t h w)
    | ReqIsAttached => final (Pool_IsAttached t w)
    | ReqAllocMemory size => final (Pool_AllocMemory t size w)
    | ReqFreeMemory ptr => final (Pool_FreeMemory t ptr w)
    end.
Proof.
  destruct c; cbn [run].
  - apply (final_then_ret _ RepPool).
  - apply (final_then_ret _ (λ _, RepUnit)).
  - apply (final_then_ret _ (λ _, RepUnit)).
  - apply (final_then_ret _ (λ _, RepUnit)).
  - apply (final_then_ret _ RepBool).
  - apply (final_then_ret _ RepPtr).
  - apply (final_then_ret _ (λ _, RepUnit)).
Qed.

(** ** Reachable states *)

(** A call keeps address [nullptr] free of pools. *)
Lemma run_null_arena t c w v w' :
  arenas w !! nullptr = None → run t c w = Done v w' →
  arenas w' !! nullptr = None.
Proof.
  intros Hn. destruct c as [|h|h|h| |size|ptr]; simpl;
    intros (r & Hr & _)%done_then_ret; revert Hr.
  - rewrite Pool_Create_unfold. done_inv.
    rewrite lookup_insert_ne; [done|apply fresh_address_not_null].
  - unfold Pool_attachToThread. unfold_M.
    destruct (slot t w =? nullptr); simpl; by done_inv.
  - unfold Pool_detachFromThread. unfold_M.
    destruct (slot t w =? fMemPool h); simpl; [|discriminate].
    destruct (arenas w !! slot t w) as [a|] eqn:Ha; simpl; [|discriminate].
    done_inv. rewrite lookup_insert_ne; [done|].
    intros Heq. rewrite Heq in Ha. congruence.
  - destruct (arenas w !! fMemPool h) as [a|] eqn:Ha.
    + rewrite (Pool_dtor_unfold t h w a Ha).
      destruct (isEmpty (reportLeaks a)); [|discriminate].
      done_inv. rewrite lookup_delete_ne; [done|].
      intros Heq. rewrite Heq in Ha. congruence.
    + unfold Pool_dtor. unfold_M.
      destruct (slot t w =? fMemPool h); simpl; rewrite Ha; discriminate.
  - unfold Pool_IsAttached. unfold_M. by done_inv.
  - unfold Pool_AllocMemory. unfold_M.
    destruct (slot t w =? nullptr) eqn:E; simpl.
    + destruct (operator_new size (sysheap w)) as [p s']. simpl.
      by done_inv.
    + apply N.eqb_neq in E.
      destruct (arenas w !! slot t w) as [a|] eqn:Ha; simpl; [|discriminate].
      destruct (allocate size a) as [p a']. simpl. done_inv.
      by rewrite lookup_insert_ne.
  - unfold Pool_FreeMemory. unfold_M.
    destruct (slot t w =? nullptr) eqn:E; simpl.
    + by done_inv.
    + apply N.eqb_neq in E.
      destruct (arenas w !! slot t w) as [a|] eqn:Ha; simpl; [|discriminate].
      done_inv. by rewrite lookup_insert_ne.
Qed.

Lemma reachable_null_arena w : reachable w → arenas w !! nullptr = None.
Proof.
  induction 1 as [s|w t c v w' _ IH _ Hrun]; [done|].
  eapply run_null_arena; eauto.
Qed.

(** The pool of a live handle is not at [nullptr]. *)
Lemma live_handle_not_null w h :
  reachable w → handle_live w h → fMemPool h ≠ nullptr.
Proof.
  intros Hr [a Ha] Heq. rewrite Heq, (reachable_null_arena w Hr) in Ha.
  discriminate.
Qed.

(** C1 — [Pool::AllocMemory(size)] reads the caller's slot.  With a pool
    bound (and alive), the call returns the pointer that pool's
    [allocate(size)] returns and the only action is that member call; with
    no pool bound, the pointer comes from [::operator new(size)], the
    [MemoryPool] objects are left as they were and no action on any of them
    is performed. *)
Theorem AllocMemory_routing t size w :
  (∀ a, slot t w ≠ nullptr → arenas w !! slot t w = Some a →
     Pool_AllocMemory t size w =
       Done (allocate size a).1
            (World (sMemPool w)
                   (<[slot t w := (allocate size a).2]> (arenas w))
                   (sysheap w)
                   (trace w ++ [EvArena (slot t w) (Allocate size)]))) ∧
  (slot t w = nullptr →
     ∃ w', Pool_AllocMemory t size w =
             Done (operator_new size (sysheap w)).1 w' ∧
           arenas w' = arenas w ∧
           sysheap w' = (operator_new size (sysheap w)).2 ∧
           trace w' =
             trace w ++ [EvNew size (operator_new size (sysheap w)).1] ∧
           filter is_arena_event (trace w') = filter is_arena_event (trace w)).
Proof.
  split.
  - intros a Hb Ha. unfold Pool_AllocMemory. unfold_M.
    apply N.eqb_neq in Hb. rewrite Hb. simpl. rewrite Ha.
    by destruct (allocate size a).
  - intros Hu. unfold Pool_AllocMemory. unfold_M.
    rewrite Hu. simpl.
    destruct (operator_new size (sysheap w)) as [p s'] eqn:E.
    eexists. split; [reflexivity|]. simpl.
    repeat split. by rewrite filter_app, filter_cons, filter_nil, app_nil_r.
Qed.

(** C2 — [Pool::FreeMemory(ptr)] routes like the allocation: with a pool
    bound (and alive) the only action is that pool's [release(ptr)]; with no
    pool bound the pointer goes to [::operator delete], the [MemoryPool]
    objects are left as they were and no action on any of them is
    performed. *)
Theorem FreeMemory_routing t ptr w :
  (∀ a, slot t w ≠ nullptr → arenas w !! slot t w = Some a →
     Pool_FreeMemory t ptr w =
       Done ()
            (World (sMemPool w)
                   (<[slot t w := release ptr a]> (arenas w))
                   (sysheap w)
                   (trace w ++ [EvArena (slot t w) (Release ptr)]))) ∧
  (slot t w = nullptr →
     ∃ w', Pool_FreeMemory t ptr w = Done () w' ∧
           arenas w' = arenas w ∧
           sysheap w' = operator_delete ptr (sysheap w) ∧
           trace w' = trace w ++ [EvDelete ptr] ∧
           filter is_arena_event (trace w') = filter is_arena_event (trace w)).
Proof.
  split.
  - intros a Hb Ha. unfold Pool_FreeMemory. unfold_M.
    apply N.eqb_neq in Hb. rewrite Hb. simpl. by rewrite Ha.
  - intros Hu. unfold Pool_FreeMemory. unfold_M.
    rewrite Hu. simpl. eexists. split; [reflexivity|]. simpl.
    repeat split. by rewrite filter_app, filter_cons, filter_nil, app_nil_r.
Qed.

(** C3 — [attachToThread()] on an unbound slot passes its assertion and
    leaves the caller's slot holding this handle's [MemoryPool] (nothing
    else changes but the record of that write); on a bound slot, whatever
    pool it holds, the assertion fails and the call is fatal. *)
Theorem attachToThread_precondition t this w :
  (slot t w = nullptr →
     ∃ w', Pool_attachToThread t this w = Done () w' ∧
           slot t w' = fMemPool this ∧
           (∀ t', t' ≠ t → slot t' w' = slot t' w) ∧
           arenas w' = arenas w ∧ sysheap w' = sysheap w ∧
           trace w' = trace w ++ [EvSlotWrite t (fMemPool this)]) ∧
  (slot t w ≠ nullptr →
     ∃ msg, Pool_attachToThread t this w = Fatal msg w).
Proof.
  unfold Pool_attachToThread. unfold_M. split.
  - intros ->. simpl. eexists. split; [reflexivity|].
    split; [apply slot_write_same|].
    split; [|done]. intros t' Hne. unfold slot; simpl.
    by rewrite lookup_insert_ne.
  - intros Hb. apply N.eqb_neq in Hb. rewrite Hb. eauto.
Qed.

(** C4 — [detachFromThread()] requires the caller's slot to hold this
    handle's [MemoryPool]: otherwise the assertion fails and the call is
    fatal.  When it holds (and the pool is alive), the call performs
    [resetScratchSpace()] on that pool and then writes [nullptr] to the
    slot, in that order and nothing else; the pool's outstanding
    allocations are the same before and after, and no other pool is
    touched. *)
Theorem detachFromThread_order t this w :
  (slot t w ≠ fMemPool this →
     ∃ msg, Pool_detachFromThread t this w = Fatal msg w) ∧
  (∀ a, slot t w = fMemPool this → arenas w !! fMemPool this = Some a →
     ∃ w', Pool_detachFromThread t this w = Done () w' ∧
           trace w' = trace w ++ [EvArena (fMemPool this) ResetScratchSpace;
                                  EvSlotWrite t nullptr] ∧
           slot t w' = nullptr ∧
           arenas w' = <[fMemPool this := resetScratchSpace a]> (arenas w) ∧
           outstanding (resetScratchSpace a) = outstanding a ∧
           sysheap w' = sysheap w).
Proof.
  unfold Pool_detachFromThread. unfold_M. split.
  - intros Hne. apply N.eqb_neq in Hne. rewrite Hne. eauto.
  - intros a Heq Ha. rewrite Heq, N.eqb_refl, Ha. simpl.
    eexists. split; [reflexivity|]. simpl.
    rewrite <- app_assoc. simpl.
    split; [done|]. split; [apply slot_write_same|].
    split; [done|]. split; [apply resetScratchSpace_outstanding|done].
Qed.

(** C5 — Running the destructor of a handle (whose pool is alive).  If the
    caller's slot still holds this handle's [MemoryPool], the destructor
    first raises the diagnostic and writes [nullptr] to the slot, and carries
    on.  In every case it then performs [reportLeaks()] and [isEmpty()] on
    the pool, in that order; [reportLeaks()] never stops it.  The assertion
    on [isEmpty()] decides the end: when it holds the destructor completes
    and the pool is deleted, when it fails the call is fatal. *)
Theorem dtor_reports_and_checks t this w a :
  arenas w !! fMemPool this = Some a →
  ∃ w' pre post,
    final (Pool_dtor t this w) = Some w' ∧
    trace w' =
      trace w ++ pre ++
      [EvArena (fMemPool this) ReportLeaks; EvArena (fMemPool this) IsEmpty]
      ++ post ∧
    (slot t w = fMemPool this →
       pre = [EvDebugFail "SkSL pool is being destroyed while it is still attached to the thread";
              EvSlotWrite t nullptr] ∧
       slot t w' = nullptr) ∧
    (slot t w ≠ fMemPool this → pre = []) ∧
    (isEmpty (reportLeaks a) = true →
       Pool_dtor t this w = Done () w' ∧ post = [EvArenaDelete (fMemPool this)] ∧
       arenas w' = delete (fMemPool this) (arenas w)) ∧
    (isEmpty (reportLeaks a) = false →
       (∃ msg, Pool_dtor t this w = Fatal msg w') ∧ post = []).
Proof.
  intros Ha. rewrite (Pool_dtor_unfold t this w a Ha).
  destruct (slot t w =? fMemPool this) eqn:E;
    [apply N.eqb_eq in E|apply N.eqb_neq in E];
    destruct (isEmpty (reportLeaks a)) eqn:Em; simpl.
  - eexists _, [_; _], [_]. split; [reflexivity|]. simpl.
    split; [by rewrite <- ?app_assoc|].
    split; [intros _; split; [done|apply slot_write_same]|].
    split; [done|]. split; [done|]. intros; discriminate.
  - eexists _, [_; _], []. split; [reflexivity|]. simpl.
    split; [by rewrite <- ?app_assoc|].
    split; [intros _; split; [done|apply slot_write_same]|].
    split; [done|]. split; [intros; discriminate|]. eauto.
  - eexists _, [], [_]. split; [reflexivity|]. simpl.
    split; [by rewrite <- ?app_assoc|].
    split; [done|]. split; [done|]. split; [done|]. intros; discriminate.
  - eexists _, [], []. split; [reflexivity|]. simpl.
    split; [by rewrite <- ?app_assoc|].
    split; [done|]. split; [done|]. split; [intros; discriminate|]. eauto.
Qed.

(** C8 — [Pool::Create()] takes the storage of the handle's object from
    [::operator new(sizeof(Pool))], makes one new [MemoryPool] with
    [preallocSize = 65536] and [minAllocSize = 32768], and returns the handle
    that owns it; these are its only two actions.  The pool's address is not
    null and was not in use.  No thread's slot is written: every slot holds
    what it held before, so the handle comes back detached; in particular,
    when no slot was left pointing at a dead pool, no thread is bound to the
    new one. *)
Theorem Create_detached w :
  ∃ pool w',
    Pool_Create w = Done pool w' ∧
    fMemPool pool ≠ nullptr ∧
    arenas w !! fMemPool pool = None ∧
    arenas w' = <[fMemPool pool := Make 65536 32768]> (arenas w) ∧
    trace w' =
      trace w ++
      [EvNew sizeof_Pool (operator_new sizeof_Pool (sysheap w)).1;
       EvMake 65536 32768 (fMemPool pool)] ∧
    sMemPool w' = sMemPool w ∧
    sysheap w' = (operator_new sizeof_Pool (sysheap w)).2 ∧
    ((∀ t, slot t w = nullptr ∨ is_Some (arenas w !! slot t w)) →
     ∀ t, slot t w' ≠ fMemPool pool).
Proof.
  rewrite Pool_Create_unfold. eexists _, _. split; [reflexivity|]. simpl.
  split; [apply fresh_address_not_null|].
  split; [apply fresh_address_unused|].
  do 4 (split; [done|]).
  intros Hok t. rewrite slot_frame.
  destruct (Hok t) as [Hn|[a Ha]].
  - rewrite Hn. intros Heq. by apply (fresh_address_not_null (arenas w)).
  - intros Heq. rewrite Heq, fresh_address_unused in Ha. discriminate.
Qed.

(** C9 — The destructor of a handle (whose pool is alive) writes the
    caller's slot only when that slot holds this handle's own [MemoryPool],
    and then clears it.  When the slot is unbound or holds another pool, the
    slots of all threads are exactly as before and the destructor performs
    no slot write; an unbound slot is unbound afterwards in every case.  The
    slot of any other thread is never changed. *)
Theorem dtor_slot_frame t this w a :
  arenas w !! fMemPool this = Some a →
  ∃ w',
    final (Pool_dtor t this w) = Some w' ∧
    (slot t w = fMemPool this → slot t w' = nullptr) ∧
    (slot t w ≠ fMemPool this →
       sMemPool w' = sMemPool w ∧
       filter is_slot_write (trace w') = filter is_slot_write (trace w)) ∧
    (slot t w = nullptr → slot t w' = nullptr) ∧
    (∀ t', t' ≠ t → slot t' w' = slot t' w).
Proof.
  intros Ha. rewrite (Pool_dtor_unfold t this w a Ha).
  destruct (slot t w =? fMemPool this) eqn:E;
    [apply N.eqb_eq in E|apply N.eqb_neq in E];
    destruct (isEmpty (reportLeaks a)); simpl;
    (eexists; split; [reflexivity|]).
  1,2: split; [intros _; apply slot_write_same|];
       split; [done|]; split; [intros _; apply slot_write_same|];
       intros t' Hne; unfold slot; simpl; by rewrite lookup_insert_ne.
  1,2: split; [done|]; split; [|done]; intros _; split; [done|]; simpl;
       rewrite ?filter_app; simpl; by rewrite ?app_nil_r.
Qed.

(** C10 — [Pool::AllocMemory], [Pool::FreeMemory] and [Pool::IsAttached]
    read the caller's slot and write no slot: whenever such a call leaves a
    state behind, the slots of all threads hold what they held before and
    the call has recorded no slot write; [IsAttached] changes nothing at
    all and answers whether the slot is bound.  The calls are defined
    unless the slot points at a pool that is no longer alive. *)
Theorem static_calls_keep_slot t w :
  (∀ size,
     (∀ w', final (Pool_AllocMemory t size w) = Some w' →
        sMemPool w' = sMemPool w ∧
        filter is_slot_write (trace w') = filter is_slot_write (trace w)) ∧
     (final (Pool_AllocMemory t size w) = None →
        slot t w ≠ nullptr ∧ arenas w !! slot t w = None)) ∧
  (∀ ptr,
     (∀ w', final (Pool_FreeMemory t ptr w) = Some w' →
        sMemPool w' = sMemPool w ∧
        filter is_slot_write (trace w') = filter is_slot_write (trace w)) ∧
     (final (Pool_FreeMemory t ptr w) = None →
        slot t w ≠ nullptr ∧ arenas w !! slot t w = None)) ∧
  Pool_IsAttached t w = Done (negb (slot t w =? nullptr)) w.
Proof.
  split; [|split; [|reflexivity]].
  - intros size. split; [apply AllocMemory_final|].
    unfold Pool_AllocMemory. unfold_M.
    destruct (slot t w =? nullptr) eqn:E; simpl.
    + by destruct (operator_new size (sysheap w)).
    + apply N.eqb_neq in E.
      destruct (arenas w !! slot t w) as [a|]; simpl; [|done].
      by destruct (allocate size a).
  - intros ptr. split; [apply FreeMemory_final|].
    unfold Pool_FreeMemory. unfold_M.
    destruct (slot t w =? nullptr) eqn:E; simpl; [done|].
    apply N.eqb_neq in E.
    by destruct (arenas w !! slot t w).
Qed.

(** C6 (as amended) — [attachToThread()] checks the calling thread's slot
    and nothing else.  In every reachable state, attaching a live handle
    from a thread whose slot is bound is fatal; this covers the thread the
    handle is attached to (its slot holds this handle's pool) and a thread
    that has another handle bound.  From a thread whose slot is unbound the
    call succeeds and binds the pool to that thread, leaving every other
    thread's slot as it was, whatever those slots hold. *)
Theorem attach_checks_calling_thread w t h :
  reachable w → handle_live w h →
  (slot t w = fMemPool h → ∃ msg, Pool_attachToThread t h w = Fatal msg w) ∧
  (slot t w ≠ nullptr → ∃ msg, Pool_attachToThread t h w = Fatal msg w) ∧
  (slot t w = nullptr →
     ∃ w', Pool_attachToThread t h w = Done () w' ∧
           slot t w' = fMemPool h ∧
           ∀ t', t' ≠ t → slot t' w' = slot t' w).
Proof.
  intros Hr Hl.
  assert (Hbound : slot t w ≠ nullptr →
                   ∃ msg, Pool_attachToThread t h w = Fatal msg w).
  { intros Hb. unfold Pool_attachToThread. unfold_M.
    apply N.eqb_neq in Hb. rewrite Hb. eauto. }
  split; [|split; [done|]].
  - intros Heq. apply Hbound. rewrite Heq.
    by apply (live_handle_not_null w h).
  - intros Hu. unfold Pool_attachToThread. unfold_M. rewrite Hu. simpl.
    eexists. split; [reflexivity|]. split; [apply slot_write_same|].
    intros t' Hne. unfold slot; simpl. by rewrite lookup_insert_ne.
Qed.

(** C7 (as amended) — A thread's slot starts unbound.  Along any run, a
    call issued by thread [t] changes the value of a slot only if it is the
    slot of [t] itself and the call is one of: [attachToThread] (from
    unbound to the handle's pool), [detachFromThread] (from the handle's
    pool to unbound), or the destructor of a handle that is still attached
    (from the handle's pool to unbound).  [Create], [IsAttached],
    [AllocMemory] and [FreeMemory] change no slot. *)
Theorem slot_lifecycle :
  (∀ (s : S) t, slot t (init (A:=A) s) = nullptr) ∧
  (∀ w t c w' t',
     reachable w → request_ok w c → final (run t c w) = Some w' →
     slot t' w' ≠ slot t' w →
     t' = t ∧ ∃ h, fMemPool h ≠ nullptr ∧
       ((c = ReqAttach h ∧ slot t w = nullptr ∧ slot t w' = fMemPool h) ∨
        (c = ReqDetach h ∧ slot t w = fMemPool h ∧ slot t w' = nullptr) ∨
        (c = ReqDestroy h ∧ slot t w = fMemPool h ∧ slot t w' = nullptr))).
Proof.
  split; [done|].
  intros w t c w' t' Hr Hok Hfin Hchg.
  assert (Hother : ∀ v tr, t' ≠ t →
            slot t' (World (<[t := v]> (sMemPool w)) (arenas w) (sysheap w) tr)
            = slot t' w).
  { intros v tr Hne. unfold slot; simpl. by rewrite lookup_insert_ne. }
  rewrite final_run in Hfin.
  destruct c as [|h|h|h| |size|ptr]; simpl in Hok.
  - exfalso. revert Hfin. rewrite Pool_Create_unfold. simpl.
    done_inv. by apply Hchg.
  - revert Hfin. unfold Pool_attachToThread. unfold_M.
    destruct (slot t w =? nullptr) eqn:E; simpl; done_inv; [|done].
    apply N.eqb_eq in E.
    destruct (decide (t' = t)) as [->|Hne];
      [|by rewrite Hother in Hchg].
    split; [done|]. exists h.
    split; [by apply (live_handle_not_null w h)|].
    left. split; [done|]. split; [done|]. apply slot_write_same.
  - revert Hfin. unfold Pool_detachFromThread. unfold_M.
    destruct (slot t w =? fMemPool h) eqn:E; simpl; [|by done_inv].
    apply N.eqb_eq in E. destruct Hok as [a Ha].
    rewrite E, Ha. simpl. done_inv.
    destruct (decide (t' = t)) as [->|Hne].
    + split; [done|]. exists h.
      split; [by apply (live_handle_not_null w h); [|exists a]|].
      right; left. split; [done|]. split; [done|]. apply slot_write_same.
    + exfalso. apply Hchg. unfold slot; simpl. by rewrite lookup_insert_ne.
  - destruct Hok as [a Ha]. revert Hfin.
    rewrite (Pool_dtor_unfold t h w a Ha).
    destruct (slot t w =? fMemPool h) eqn:E.
    + apply N.eqb_eq in E.
      assert (Hw' : slot t' w' ≠ slot t' w → t' = t ∧ slot t w' = nullptr →
                t' = t ∧ ∃ h0, fMemPool h0 ≠ nullptr ∧
                  ((ReqDestroy h = ReqAttach h0 ∧ slot t w = nullptr ∧
                      slot t w' = fMemPool h0) ∨
                   (ReqDestroy h = ReqDetach h0 ∧ slot t w = fMemPool h0 ∧
                      slot t w' = nullptr) ∨
                   (ReqDestroy h = ReqDestroy h0 ∧ slot t w = fMemPool h0 ∧
                      slot t w' = nullptr))).
      { intros _ [-> Hc]. split; [done|]. exists h.
        split; [by apply (live_handle_not_null w h); [|exists a]|].
        right; right. done. }
      destruct (isEmpty (reportLeaks a)); simpl; done_inv;
        (destruct (decide (t' = t)) as [->|Hne];
         [apply Hw'; [done|]; split; [done|]; apply slot_write_same
         |exfalso; apply Hchg; unfold slot; simpl;
          by rewrite lookup_insert_ne]).
    + destruct (isEmpty (reportLeaks a)); simpl;
        done_inv; exfalso; by apply Hchg.
  - exfalso. revert Hfin. unfold Pool_IsAttached. unfold_M. simpl.
    done_inv. by apply Hchg.
  - exfalso. apply Hchg. apply AllocMemory_final in Hfin as [Hs _].
    unfold slot. by rewrite Hs.
  - exfalso. apply Hchg. apply FreeMemory_final in Hfin as [Hs _].
    unfold slot. by rewrite Hs.
Qed.

End Properties.

(** * The STARBOARD accessors keep the same slot *)

Section StarboardSlot.
Context {T : Type} `{!Starboard.SbThread T}.
Import Starboard.
Implicit Types (st : Starboard.state T) (σ : T) (t : nat).

(** What the accessors rely on from Starboard: the invalid key is not
    valid and reads as null; a new key reads as null on every thread; a
    write to a valid key is read back by the same thread and is not seen by
    any other. *)
Hypothesis invalid_key : SbThreadIsValidLocalKey kSbThreadLocalKeyInvalid = false.
Hypothesis get_invalid : ∀ key t σ,
  SbThreadIsValidLocalKey key = false → SbThreadGetLocalValue key t σ = nullptr.
Hypothesis get_created : ∀ σ key σ' t,
  SbThreadCreateLocalKey σ = (key, σ') → SbThreadIsValidLocalKey key = true →
  SbThreadGetLocalValue key t σ' = nullptr.
Hypothesis get_set_same : ∀ key v t σ,
  SbThreadIsValidLocalKey key = true →
  SbThreadGetLocalValue key t (SbThreadSetLocalValue key v t σ) = v.
Hypothesis get_set_other : ∀ key v t t' σ,
  t' ≠ t →
  SbThreadGetLocalValue key t' (SbThreadSetLocalValue key v t σ) =
  SbThreadGetLocalValue key t' σ.

Lemma starboard_start σ t :
  key_pending (start σ) ∧
  Starboard.get_thread_local_memory_pool t (start σ) = nullptr.
Proof.
  split; [intros _; exact invalid_key|].
  apply get_invalid, invalid_key.
Qed.

Lemma starboard_ensure t st st' :
  key_pending st → EnsureThreadLocalKeyInited t st = Some st' →
  s_once_flag st' = true ∧
  SbThreadIsValidLocalKey (s_thread_local_key st') = true ∧
  ∀ t', Starboard.get_thread_local_memory_pool t' st' =
        Starboard.get_thread_local_memory_pool t' st.
Proof.
  intros Hp. unfold EnsureThreadLocalKeyInited.
  destruct (s_once_flag st) eqn:Hf; simpl.
  - destruct (SbThreadIsValidLocalKey (s_thread_local_key st)) eqn:Hv;
      [|discriminate].
    intros [= <-]. done.
  - unfold InitThreadLocalKey. simpl.
    destruct (SbThreadCreateLocalKey (storage st)) as [key σ] eqn:Hc.
    destruct (SbThreadIsValidLocalKey key) eqn:Hv; simpl; [|discriminate].
    rewrite Hv. intros [= <-]. simpl.
    split; [done|]. split; [done|].
    intros t'. unfold Starboard.get_thread_local_memory_pool. simpl.
    rewrite (get_invalid (s_thread_local_key st)) by (by apply Hp).
    destruct (decide (t' = t)) as [->|Hne].
    + by apply get_set_same.
    + rewrite get_set_other by done. by apply (get_created (storage st)).
Qed.

(** A write through the STARBOARD accessors either stops on a failed
    assertion (Starboard handed out no valid key) or leaves a state in which
    the writing thread reads the value back and every other thread reads
    what it read before: the behaviour of the [thread_local] variable. *)
Lemma starboard_set t v st st' :
  key_pending st →
  Starboard.set_thread_local_memory_pool t v st = Some st' →
  key_pending st' ∧
  Starboard.get_thread_local_memory_pool t st' = v ∧
  ∀ t', t' ≠ t →
    Starboard.get_thread_local_memory_pool t' st' =
    Starboard.get_thread_local_memory_pool t' st.
Proof.
  intros Hp. unfold Starboard.set_thread_local_memory_pool.
  destruct (EnsureThreadLocalKeyInited t st) as [st1|] eqn:He; simpl;
    [|discriminate].
  destruct (starboard_ensure t st st1 Hp He) as (Hf & Hv & Hsame).
  intros [= <-].
  split; [intros Hf'; simpl in Hf'; congruence|].
  unfold Starboard.get_thread_local_memory_pool in *. simpl.
  split; [by apply get_set_same|].
  intros t' Hne. rewrite get_set_other by done. apply Hsame.
Qed.

End StarboardSlot.

(** * How the calls compose *)

Section Compositions.
Context {A S : Type} `{!MemoryPool A} `{!SystemAllocator S} `{!PoolLayout}.
Implicit Types (w : world A S) (t : nat) (this h : Pool).

Ltac unfold_calls :=
  unfold Pool_attachToThread, Pool_detachFromThread, Pool_IsAttached,
    Pool_AllocMemory, Pool_FreeMemory,
    mbind, M_bind, bind, mret, M_ret, ret,
    get_thread_local_memory_pool, set_thread_local_memory_pool,
    member_call, global_operator_new, global_operator_delete,
    MemoryPool_Make, MemoryPool_delete, SkASSERT, SkDEBUGFAIL, emit in *.

Lemma slot_after_write t t' v w (ar : gmap N A) (s : S) tr :
  slot t' (World (<[t := v]> (sMemPool w)) ar s tr) =
    if decide (t' = t) then v else slot t' w.
Proof.
  unfold slot; simpl. destruct (decide (t' = t)) as [->|Hne].
  - by rewrite lookup_insert_eq.
  - by rewrite lookup_insert_ne.
Qed.

(** X1 — Attach followed by detach on the same thread, for a handle whose
    pool is alive and a thread whose slot is unbound: both calls return,
    every thread's slot reads what it read before, the pool has had its
    scratch space reset and nothing else, and the three actions are the slot
    write, the reset, and the clearing write, in that order. *)
Theorem attach_detach_roundtrip t h w a :
  slot t w = nullptr → arenas w !! fMemPool h = Some a →
  ∃ w',
    (Pool_attachToThread t h;; Pool_detachFromThread t h) w = Done () w' ∧
    (∀ t', slot t' w' = slot t' w) ∧
    arenas w' = <[fMemPool h := resetScratchSpace a]> (arenas w) ∧
    sysheap w' = sysheap w ∧
    trace w' = trace w ++ [EvSlotWrite t (fMemPool h);
                           EvArena (fMemPool h) ResetScratchSpace;
                           EvSlotWrite t nullptr].
Proof.
  intros Hu Ha. unfold_calls. rewrite Hu. simpl.
  rewrite slot_after_write, decide_True by done.
  rewrite N.eqb_refl. simpl. rewrite Ha. simpl.
  eexists. split; [reflexivity|]. simpl.
  split; [|split; [done|split; [done|]]].
  - intros t'. unfold slot; simpl. rewrite insert_insert_eq.
    destruct (decide (t' = t)) as [->|Hne].
    + rewrite lookup_insert_eq. simpl. symmetry. exact Hu.
    + by rewrite lookup_insert_ne.
  - by rewrite <- !app_assoc.
Qed.

(** X2 — [IsAttached] follows the binding of the calling thread only.  In a
    reachable state, once a live handle has been attached from thread [t],
    [IsAttached] answers [true] on [t]; once it has been detached from [t],
    [IsAttached] answers [false] on [t]; on any other thread the answer is
    the one it was before the attach or the detach. *)
Theorem IsAttached_follows_binding w t h :
  reachable w → handle_live w h →
  (slot t w = nullptr →
     ∃ w', Pool_attachToThread t h w = Done () w' ∧
           Pool_IsAttached t w' = Done true w' ∧
           ∀ t', t' ≠ t →
             Pool_IsAttached t' w' = Done (negb (slot t' w =? nullptr)) w') ∧
  (slot t w = fMemPool h →
     ∃ w', Pool_detachFromThread t h w = Done () w' ∧
           Pool_IsAttached t w' = Done false w' ∧
           ∀ t', t' ≠ t →
             Pool_IsAttached t' w' = Done (negb (slot t' w =? nullptr)) w').
Proof.
  intros Hr Hl.
  assert (Hnn : fMemPool h ≠ nullptr) by by apply (live_handle_not_null w h).
  destruct Hl as [a Ha]. split.
  - intros Hu. unfold_calls. rewrite Hu. simpl.
    eexists. split; [reflexivity|]. split.
    + rewrite slot_after_write, decide_True by done.
      by rewrite (proj2 (N.eqb_neq _ _) Hnn).
    + intros t' Hne. by rewrite slot_after_write, decide_False.
  - intros Hb. unfold_calls. rewrite Hb, N.eqb_refl. simpl. rewrite Ha. simpl.
    eexists. split; [reflexivity|]. split.
    + by rewrite slot_after_write, decide_True.
    + intros t' Hne. by rewrite slot_after_write, decide_False.
Qed.

(** X3 — A second attach without a detach in between, and a second detach
    without an attach in between, are fatal.  In a reachable state, after a
    live handle has been attached from thread [t], attaching any handle
    (the same one included) from [t] fails the assertion with the slot still
    holding the first handle's pool; after the handle has been detached from
    [t], detaching it again from [t] fails the assertion. *)
Theorem second_call_is_fatal w t h :
  reachable w → handle_live w h →
  (slot t w = nullptr →
     ∀ h', ∃ msg w1,
       (Pool_attachToThread t h;; Pool_attachToThread t h') w = Fatal msg w1 ∧
       slot t w1 = fMemPool h) ∧
  (slot t w = fMemPool h →
     ∃ msg w1,
       (Pool_detachFromThread t h;; Pool_detachFromThread t h) w
         = Fatal msg w1 ∧
       slot t w1 = nullptr).
Proof.
  intros Hr Hl.
  assert (Hnn : fMemPool h ≠ nullptr) by by apply (live_handle_not_null w h).
  destruct Hl as [a Ha]. split.
  - intros Hu h'. unfold_calls. rewrite Hu. simpl.
    rewrite slot_after_write, decide_True by done.
    rewrite (proj2 (N.eqb_neq _ _) Hnn).
    eexists _, _. split; [reflexivity|].
    by rewrite slot_after_write, decide_True.
  - intros Hb. unfold_calls. rewrite Hb, N.eqb_refl. simpl. rewrite Ha. simpl.
    rewrite slot_after_write, decide_True by done.
    assert (Hne : (nullptr =? fMemPool h) = false)
      by (apply N.eqb_neq; congruence).
    rewrite Hne. eexists _, _. split; [reflexivity|].
    by rewrite slot_after_write, decide_True.
Qed.

(** X4 — Allocation followed by the matching free, with nothing in
    between, takes one route.  With a live pool bound, the block comes from
    that pool's [allocate] and goes back to the same pool's [release]; the
    system allocator sees neither call.  With the slot unbound, the block
    comes from [::operator new] and goes back to [::operator delete]; no
    pool sees either call. *)
Theorem alloc_free_one_route t size w :
  (∀ a, slot t w ≠ nullptr → arenas w !! slot t w = Some a →
     ∃ w',
       (p ← Pool_AllocMemory t size; Pool_FreeMemory t p) w = Done () w' ∧
       arenas w' =
         <[slot t w := release (allocate size a).1 (allocate size a).2]>
           (arenas w) ∧
       sysheap w' = sysheap w ∧
       trace w' = trace w ++
                  [EvArena (slot t w) (Allocate size);
                   EvArena (slot t w) (Release (allocate size a).1)]) ∧
  (slot t w = nullptr →
     ∃ w',
       (p ← Pool_AllocMemory t size; Pool_FreeMemory t p) w = Done () w' ∧
       arenas w' = arenas w ∧
       sysheap w' =
         operator_delete (operator_new size (sysheap w)).1
                         (operator_new size (sysheap w)).2 ∧
       trace w' = trace w ++
                  [EvNew size (operator_new size (sysheap w)).1;
                   EvDelete (operator_new size (sysheap w)).1]).
Proof.
  split.
  - intros a Hb Ha. unfold_calls.
    rewrite (proj2 (N.eqb_neq _ _) Hb). simpl. rewrite Ha.
    destruct (allocate size a) as [p a'] eqn:E. simpl.
    unfold slot at 1. simpl. fold (slot t w).
    rewrite (proj2 (N.eqb_neq _ _) Hb). simpl.
    rewrite lookup_insert_eq. simpl.
    eexists. split; [reflexivity|]. simpl.
    split; [apply insert_insert_eq|]. split; [done|].
    by rewrite <- !app_assoc.
  - intros Hu. unfold_calls. rewrite Hu. simpl.
    destruct (operator_new size (sysheap w)) as [p s'] eqn:E. simpl.
    unfold slot at 1. simpl. fold (slot t w). rewrite Hu. simpl.
    eexists. split; [reflexivity|]. simpl.
    split; [done|]. split; [done|]. by rewrite <- !app_assoc.
Qed.

(** X5 — [FreeMemory] looks at the slot as it is when the block is freed,
    not as it was when the block was allocated.  A block allocated from the
    pool of an attached handle and freed after that handle has been detached
    is handed to [::operator delete]; the pool it came from never sees a
    [release] for it. *)
Theorem free_after_detach_bypasses_pool t h size w a :
  slot t w = fMemPool h → fMemPool h ≠ nullptr →
  arenas w !! fMemPool h = Some a →
  ∃ w',
    (p ← Pool_AllocMemory t size;
     Pool_detachFromThread t h;;
     Pool_FreeMemory t p) w = Done () w' ∧
    arenas w' =
      <[fMemPool h := resetScratchSpace (allocate size a).2]> (arenas w) ∧
    sysheap w' = operator_delete (allocate size a).1 (sysheap w) ∧
    trace w' = trace w ++
               [EvArena (fMemPool h) (Allocate size);
                EvArena (fMemPool h) ResetScratchSpace;
                EvSlotWrite t nullptr;
                EvDelete (allocate size a).1].
Proof.
  intros Hb Hnn Ha. unfold_calls. rewrite Hb.
  rewrite (proj2 (N.eqb_neq _ _) Hnn). simpl. rewrite Ha.
  destruct (allocate size a) as [p a'] eqn:E. simpl.
  rewrite !slot_frame, Hb, N.eqb_refl. simpl.
  rewrite lookup_insert_eq. simpl.
  rewrite slot_after_write, decide_True by done. simpl.
  eexists. split; [reflexivity|]. simpl.
  split; [apply insert_insert_eq|]. split; [done|].
  by rewrite <- !app_assoc.
Qed.

(** X6 — The destructor looks at the slot of the thread that runs it and
    at no other.  When a handle attached to thread [t1] is destroyed from
    another thread [t2] (its pool being empty), the destructor completes
    without a diagnostic and deletes the pool, and the slot of [t1] keeps
    pointing at it: [IsAttached] on [t1] still answers [true], and
    [AllocMemory] and [FreeMemory] on [t1] have no defined behaviour. *)
Theorem dtor_elsewhere_leaves_dangling t1 t2 h w a :
  t1 ≠ t2 → slot t1 w = fMemPool h → fMemPool h ≠ nullptr →
  slot t2 w ≠ fMemPool h → arenas w !! fMemPool h = Some a →
  isEmpty (reportLeaks a) = true →
  ∃ w',
    Pool_dtor t2 h w = Done () w' ∧
    trace w' = trace w ++ [EvArena (fMemPool h) ReportLeaks;
                           EvArena (fMemPool h) IsEmpty;
                           EvArenaDelete (fMemPool h)] ∧
    slot t1 w' = fMemPool h ∧
    arenas w' !! fMemPool h = None ∧
    Pool_IsAttached t1 w' = Done true w' ∧
    (∀ size, Pool_AllocMemory t1 size w' = Undefined) ∧
    (∀ ptr, Pool_FreeMemory t1 ptr w' = Undefined).
Proof.
  intros Hne Hb Hnn Hoth Ha Hemp.
  rewrite (Pool_dtor_unfold t2 h w a Ha).
  rewrite (proj2 (N.eqb_neq _ _) Hoth), Hemp.
  eexists. split; [reflexivity|]. simpl.
  split; [by rewrite <- !app_assoc|].
  split; [exact Hb|]. split; [apply lookup_delete_eq|].
  unfold_calls. unfold slot in *. simpl. rewrite Hb.
  rewrite (proj2 (N.eqb_neq _ _) Hnn). simpl.
  rewrite lookup_delete_eq. done.
Qed.

(** ** Slot writes along a run *)

Ltac outcome_inv :=
  let H := fresh in intros H; inversion H; subst; clear H; simpl.

Lemma slot_writes_app t tr1 tr2 :
  slot_writes t (tr1 ++ tr2) = slot_writes t tr1 ++ slot_writes t tr2.
Proof. apply omap_app. Qed.

Ltac no_writes :=
  let t0 := fresh "t0" in
  intros t0; rewrite !slot_writes_app; simpl; by rewrite ?app_nil_r.

Ltac writes_by t :=
  let t0 := fresh "t0" in
  intros t0; rewrite !slot_writes_app; simpl;
  destruct (decide (t = t0)); simpl; by rewrite ?app_nil_r.

Lemma alternates_snoc b l v s :
  alternates b l = true →
  (last l = None → (s =? nullptr) = b) →
  (∀ u, last l = Some u → s = u) →
  (v =? nullptr) = negb (s =? nullptr) →
  alternates b (l ++ [v]) = true.
Proof.
  revert b. induction l as [|u l IH]; intros b Halt Hnone Hsome Hv; simpl.
  - rewrite Hv, (Hnone eq_refl). by destruct b.
  - simpl in Halt. apply andb_true_iff in Halt as [Hu Hl].
    rewrite Hu. simpl. apply IH; [done| | |done].
    + intros Hl'. apply last_None in Hl' as ->.
      rewrite (Hsome u eq_refl). destruct b; simpl in *.
      * by apply negb_true_iff in Hu.
      * done.
    + intros u' Hu'. apply Hsome. rewrite last_cons, Hu'. done.
Qed.

(** What one returning call does to the slots and to the record of slot
    writes: nothing, or one write by the calling thread that turns a bound
    slot into an unbound one or the other way round. *)
Lemma run_slot_step w t c v w' :
  reachable w → request_ok w c → run t c w = Done v w' →
  (sMemPool w' = sMemPool w ∧
   ∀ t0, slot_writes t0 (trace w') = slot_writes t0 (trace w)) ∨
  (∃ u, sMemPool w' = <[t := u]> (sMemPool w) ∧
        (u =? nullptr) = negb (slot t w =? nullptr) ∧
        ∀ t0, slot_writes t0 (trace w') =
              slot_writes t0 (trace w) ++ if decide (t = t0) then [u] else []).
Proof.
  intros Hr Hok.
  destruct c as [|h|h|h| |size|ptr]; simpl in Hok; simpl;
    intros (r & Hrun & _)%done_then_ret; revert Hrun.
  - rewrite Pool_Create_unfold. outcome_inv. left.
    split; [done|]. no_writes.
  - assert (Hnn : fMemPool h ≠ nullptr)
      by by apply (live_handle_not_null w h).
    unfold_calls. destruct (slot t w =? nullptr) eqn:E; simpl;
      outcome_inv.
    right. exists (fMemPool h). split; [done|].
    split; [exact (proj2 (N.eqb_neq _ _) Hnn)|].
    writes_by t.
  - assert (Hnn : fMemPool h ≠ nullptr)
      by by apply (live_handle_not_null w h).
    destruct Hok as [a Ha]. unfold_calls.
    destruct (slot t w =? fMemPool h) eqn:E; simpl; [|discriminate].
    apply N.eqb_eq in E. rewrite E, Ha. simpl. outcome_inv.
    right. exists nullptr. split; [done|].
    split; [by rewrite (proj2 (N.eqb_neq _ _) Hnn)|].
    writes_by t.
  - assert (Hnn : fMemPool h ≠ nullptr)
      by by apply (live_handle_not_null w h).
    destruct Hok as [a Ha]. rewrite (Pool_dtor_unfold t h w a Ha).
    destruct (isEmpty (reportLeaks a)); [|discriminate].
    destruct (slot t w =? fMemPool h) eqn:E; outcome_inv.
    + apply N.eqb_eq in E. right. exists nullptr. split; [done|].
      split; [by rewrite E, (proj2 (N.eqb_neq _ _) Hnn)|].
      writes_by t.
    + left. split; [done|]. intros t0.
      rewrite !slot_writes_app. simpl. by rewrite !app_nil_r.
  - unfold_calls. outcome_inv. by left.
  - unfold_calls. left. revert Hrun.
    destruct (slot t w =? nullptr); simpl.
    + destruct (operator_new size (sysheap w)) as [p s']. outcome_inv.
      split; [done|]. no_writes.
    + destruct (arenas w !! slot t w) as [a|]; simpl; [|discriminate].
      destruct (allocate size a) as [p a']. outcome_inv.
      split; [done|]. no_writes.
  - unfold_calls. left. revert Hrun.
    destruct (slot t w =? nullptr); simpl.
    + outcome_inv.
      split; [done|]. no_writes.
    + destruct (arenas w !! slot t w) as [a|]; simpl; [|discriminate].
      outcome_inv.
      split; [done|]. no_writes.
Qed.

(** X7 — Along every run, the writes of a thread to its slot alternate: a
    pool, then null, then a pool, and so on, beginning with a pool; and the
    slot holds the last value the thread wrote (null when it never wrote).
    So a slot is never bound twice in a row nor cleared twice in a row,
    whichever of attach, detach and the destructor does the writing. *)
Theorem slot_writes_alternate w t :
  reachable w →
  alternates true (slot_writes t (trace w)) = true ∧
  slot t w = default nullptr (last (slot_writes t (trace w))).
Proof.
  induction 1 as [s|w t1 c v w' Hr [IHa IHs] Hok Hrun]; [done|].
  destruct (run_slot_step w t1 c v w' Hr Hok Hrun)
    as [[Hm Htr]|(u & Hm & Hu & Htr)].
  - rewrite Htr. split; [done|]. unfold slot. rewrite Hm. exact IHs.
  - rewrite Htr. destruct (decide (t1 = t)) as [->|Hne].
    + split.
      * apply (alternates_snoc _ _ _ (slot t w)); [done| | |done].
        -- intros Hl. rewrite IHs, Hl. done.
        -- intros u' Hl. rewrite IHs, Hl. done.
      * rewrite last_snoc. unfold slot. rewrite Hm, lookup_insert_eq. done.
    + rewrite app_nil_r. split; [done|].
      unfold slot. rewrite Hm, lookup_insert_ne by done. exact IHs.
Qed.

(** X8 — Pools come into being in [Create] and go away in the destructor,
    nowhere else.  Whatever state a call leaves behind: after [Create] the
    live pools are the ones before plus one new address; after a completed
    destructor they are the ones before minus the handle's pool, and after
    a destructor stopped by its assertion they are the ones before; after
    any other call (attach, detach, [IsAttached], [AllocMemory],
    [FreeMemory]) they are exactly the ones before. *)
Theorem live_pools_frame t c w w' :
  final (run t c w) = Some w' →
  match c with
  | ReqCreate =>
      ∃ p, arenas w !! p = None ∧ dom (arenas w') = {[p]} ∪ dom (arenas w)
  | ReqDestroy h =>
      (Pool_dtor t h w = Done () w' ∧
       dom (arenas w') = dom (arenas w) ∖ {[fMemPool h]}) ∨
      ((∃ msg, Pool_dtor t h w = Fatal msg w') ∧
       dom (arenas w') = dom (arenas w))
  | _ => dom (arenas w') = dom (arenas w)
  end.
Proof.
  rewrite final_run.
  destruct c as [|h|h|h| |size|ptr].
  - rewrite Pool_Create_unfold. simpl. outcome_inv.
    exists (fresh_address (arenas w)).
    split; [apply fresh_address_unused|apply dom_insert_L].
  - unfold_calls. destruct (slot t w =? nullptr); simpl; by outcome_inv.
  - unfold_calls. destruct (slot t w =? fMemPool h); simpl; [|by outcome_inv].
    destruct (arenas w !! slot t w) as [a|] eqn:Ha; simpl; [|discriminate].
    outcome_inv. by apply dom_insert_lookup_L.
  - destruct (arenas w !! fMemPool h) as [a|] eqn:Ha.
    + rewrite (Pool_dtor_unfold t h w a Ha).
      destruct (isEmpty (reportLeaks a)); simpl; outcome_inv.
      * left. split; [done|]. apply dom_delete_L.
      * right. split; [eauto|]. by apply dom_insert_lookup_L.
    + unfold Pool_dtor. unfold_calls.
      destruct (slot t w =? fMemPool h); simpl; rewrite Ha; discriminate.
  - unfold_calls. simpl. by outcome_inv.
  - unfold_calls. destruct (slot t w =? nullptr); simpl.
    + destruct (operator_new size (sysheap w)) as [p s']. by outcome_inv.
    + destruct (arenas w !! slot t w) as [a|] eqn:Ha; simpl; [|discriminate].
      destruct (allocate size a) as [p a']. outcome_inv.
      by apply dom_insert_lookup_L.
  - unfold_calls. destruct (slot t w =? nullptr); simpl.
    + by outcome_inv.
    + destruct (arenas w !! slot t w) as [a|] eqn:Ha; simpl; [|discriminate].
      outcome_inv. by apply dom_insert_lookup_L.
Qed.

(** ** Series of calls *)

Lemma run_all_cons_inv t c cs w rs w' :
  run_all ((t, c) :: cs) w = Done rs w' →
  ∃ r w1 rs', run t c w = Done r w1 ∧ run_all cs w1 = Done rs' w' ∧
              rs = r :: rs'.
Proof.
  simpl. unfold mbind, M_bind, bind.
  destruct (run t c w) as [r w1| |]; [|discriminate..].
  unfold mbind, M_bind, bind.
  destruct (run_all cs w1) as [rs' w2| |] eqn:Hrest; [|discriminate..].
  unfold mret, M_ret, ret. intros [= <- <-]. by exists r, w1, rs'.
Qed.

Lemma final_run_all_cons t c cs w :
  final (run_all ((t, c) :: cs) w) =
    match run t c w with
    | Done _ w1 => final (run_all cs w1)
    | Fatal _ w1 => Some w1
    | Undefined => None
    end.
Proof.
  simpl. unfold mbind, M_bind, bind. destruct (run t c w); [|done..].
  unfold mbind, M_bind, bind. by destruct (run_all cs w0).
Qed.

(** One static call: it returns or is undefined, never fatal, and what it
    leaves behind has the slots and the set of live pools it found. *)
Lemma static_step t c w :
  is_static_request c = true →
  match run t c w with
  | Done _ w1 =>
      sMemPool w1 = sMemPool w ∧ dom (arenas w1) = dom (arenas w) ∧
      filter is_slot_write (trace w1) = filter is_slot_write (trace w)
  | Fatal _ _ => False
  | Undefined => True
  end.
Proof.
  destruct c as [|h|h|h| |size|ptr]; try discriminate; intros _; simpl;
    unfold_calls.
  - done.
  - destruct (slot t w =? nullptr); simpl.
    + destruct (operator_new size (sysheap w)) as [p s']. simpl.
      split; [done|]. split; [done|].
      rewrite filter_app. simpl. by rewrite app_nil_r.
    + destruct (arenas w !! slot t w) as [a|] eqn:Ha; simpl; [|done].
      destruct (allocate size a) as [p a']. simpl.
      split; [done|]. split; [by apply dom_insert_lookup_L|].
      rewrite filter_app. simpl. by rewrite app_nil_r.
  - destruct (slot t w =? nullptr); simpl.
    + split; [done|]. split; [done|].
      rewrite filter_app. simpl. by rewrite app_nil_r.
    + destruct (arenas w !! slot t w) as [a|] eqn:Ha; simpl; [|done].
      split; [done|]. split; [by apply dom_insert_lookup_L|].
      rewrite filter_app. simpl. by rewrite app_nil_r.
Qed.

(** X9 — Any series of calls to the static entry points ([IsAttached],
    [AllocMemory], [FreeMemory]), from any threads in any order, leaves the
    slot of every thread and the set of live pools as it found them, and
    performs no slot write, whenever it leaves a state behind. *)
Theorem static_traffic_frame cs w w' :
  Forall (λ tc, is_static_request tc.2 = true) cs →
  final (run_all cs w) = Some w' →
  sMemPool w' = sMemPool w ∧
  dom (arenas w') = dom (arenas w) ∧
  filter is_slot_write (trace w') = filter is_slot_write (trace w).
Proof.
  intros Hcs. revert w. induction Hcs as [|[t c] cs Hc _ IH]; intros w.
  - simpl. unfold mret, M_ret, ret. simpl. by intros [= <-].
  - rewrite final_run_all_cons. simpl in Hc.
    assert (Hstep := static_step t c w Hc).
    destruct (run t c w) as [r w1|msg w1|]; [|done|discriminate].
    destruct Hstep as (Hm & Hd & Hf). intros Hfin.
    destruct (IH w1 Hfin) as (Hm' & Hd' & Hf').
    split; [congruence|]. split; congruence.
Qed.

(** One memory call that returns: it keeps the slots; on an unbound slot
    it keeps the pools and its action is none on a pool; on a bound slot it
    keeps the system allocator and every other pool, and its action is one
    on the bound pool, which was and stays alive. *)
Lemma memory_step t c w r w1 :
  is_memory_request c = true → run t c w = Done r w1 →
  sMemPool w1 = sMemPool w ∧
  (slot t w = nullptr →
     arenas w1 = arenas w ∧
     ∃ e, trace w1 = trace w ++ [e] ∧ is_arena_event e = false) ∧
  (slot t w ≠ nullptr →
     sysheap w1 = sysheap w ∧
     is_Some (arenas w1 !! slot t w) ∧
     (∀ p, p ≠ slot t w → arenas w1 !! p = arenas w !! p) ∧
     ∃ call, trace w1 = trace w ++ [EvArena (slot t w) call]).
Proof.
  destruct c as [|h|h|h| |size|ptr]; try discriminate; intros _; simpl;
    intros (x & Hrun & _)%done_then_ret; revert Hrun; unfold_calls;
    destruct (slot t w =? nullptr) eqn:E; simpl;
    [apply N.eqb_eq in E|apply N.eqb_neq in E
    |apply N.eqb_eq in E|apply N.eqb_neq in E].
  - destruct (operator_new size (sysheap w)) as [p s']. outcome_inv.
    split; [done|]. split; [eauto|done].
  - destruct (arenas w !! slot t w) as [a|] eqn:Ha; simpl; [|discriminate].
    destruct (allocate size a) as [p a']. outcome_inv.
    split; [done|]. split; [done|]. intros _. split; [done|].
    split; [rewrite lookup_insert_eq; eauto|].
    split; [intros q Hq; by rewrite lookup_insert_ne|eauto].
  - outcome_inv. split; [done|]. split; [eauto|done].
  - destruct (arenas w !! slot t w) as [a|] eqn:Ha; simpl; [|discriminate].
    outcome_inv.
    split; [done|]. split; [done|]. intros _. split; [done|].
    split; [rewrite lookup_insert_eq; eauto|].
    split; [intros q Hq; by rewrite lookup_insert_ne|eauto].
Qed.

(** X10 — Memory traffic of one thread stays on one side.  Take any series
    of [AllocMemory] and [FreeMemory] calls by one thread that returns.  No
    slot has changed.  If the thread had a live pool bound, every action of
    the series is an action on that pool: the system allocator and all
    other pools are as they were, and the pool is still alive.  If the
    thread's slot was unbound, the pools are as they were and no action of
    the series is an action on a pool. *)
Theorem memory_traffic_routing t cs w rs w' :
  Forall (λ tc, tc.1 = t ∧ is_memory_request tc.2 = true) cs →
  run_all cs w = Done rs w' →
  length rs = length cs ∧
  sMemPool w' = sMemPool w ∧
  (slot t w ≠ nullptr → is_Some (arenas w !! slot t w) →
     sysheap w' = sysheap w ∧
     is_Some (arenas w' !! slot t w) ∧
     (∀ p, p ≠ slot t w → arenas w' !! p = arenas w !! p) ∧
     ∃ es, trace w' = trace w ++ es ∧
           Forall (λ e, ∃ call, e = EvArena (slot t w) call) es) ∧
  (slot t w = nullptr →
     arenas w' = arenas w ∧
     ∃ es, trace w' = trace w ++ es ∧
           Forall (λ e, is_arena_event e = false) es).
Proof.
  intros Hcs. revert w rs.
  induction Hcs as [|[t1 c] cs [Ht Hc] _ IH]; intros w rs.
  - simpl. unfold mret, M_ret, ret. intros [= <- <-].
    split; [done|]. split; [done|].
    split; [intros _ Hl|intros _].
    + split; [done|]. split; [done|]. split; [done|].
      exists []. by rewrite app_nil_r.
    + split; [done|]. exists []. by rewrite app_nil_r.
  - simpl in Ht, Hc. subst t1.
    intros (r & w1 & rs' & Hstep & Hrest & ->)%run_all_cons_inv.
    destruct (memory_step t c w r w1 Hc Hstep) as (Hm1 & Hu1 & Hb1).
    destruct (IH w1 rs' Hrest) as (Hlen & Hm & Hb & Hu).
    assert (Hslot : slot t w1 = slot t w) by (unfold slot; by rewrite Hm1).
    rewrite Hslot in Hb, Hu.
    split; [simpl; congruence|]. split; [congruence|]. split.
    + intros Hbound _.
      destruct (Hb1 Hbound) as (Hsys1 & Hl1 & Hoth1 & call & Htr1).
      destruct (Hb Hbound Hl1) as (Hsys & Hl & Hoth & es & Htr & Hes).
      split; [congruence|]. split; [done|]. split.
      * intros p Hp. by rewrite (Hoth p Hp), (Hoth1 p Hp).
      * exists (EvArena (slot t w) call :: es).
        split; [by rewrite Htr, Htr1, <- app_assoc|].
        constructor; [eauto|done].
    + intros Hunb.
      destruct (Hu1 Hunb) as (Har1 & e & Htr1 & He).
      destruct (Hu Hunb) as (Har & es & Htr & Hes).
      split; [congruence|].
      exists (e :: es). split; [by rewrite Htr, Htr1, <- app_assoc|].
      by constructor.
Qed.

(** X14 — Binding is per thread.  When thread [t] attaches a handle, a
    call to a static entry point from another thread [t'] goes where it
    would have gone without the attach: it gives the same reply and leaves
    the same pools, the same system-allocator state and the same slot of
    [t'], or is undefined in both cases. *)
Theorem attach_leaves_other_threads_alone t t' h c w :
  t' ≠ t → slot t w = nullptr → is_static_request c = true →
  ∃ w1,
    Pool_attachToThread t h w = Done () w1 ∧
    match run t' c w, run t' c w1 with
    | Done r w2, Done r' w2' =>
        r = r' ∧ arenas w2' = arenas w2 ∧ sysheap w2' = sysheap w2 ∧
        slot t' w2' = slot t' w2
    | Undefined, Undefined => True
    | _, _ => False
    end.
Proof.
  intros Hne Hu Hc. unfold Pool_attachToThread at 1.
  unfold mbind, M_bind, bind, get_thread_local_memory_pool, SkASSERT,
    set_thread_local_memory_pool.
  rewrite Hu. simpl. eexists. split; [reflexivity|].
  destruct c as [|h0|h0|h0| |size|ptr]; try discriminate; simpl;
    unfold_calls; rewrite ?slot_after_write, ?decide_False by done.
  - done.
  - destruct (slot t' w =? nullptr); simpl.
    + destruct (operator_new size (sysheap w)) as [p s']. simpl.
      by rewrite ?slot_after_write, ?decide_False.
    + destruct (arenas w !! slot t' w) as [a|]; simpl; [|done].
      destruct (allocate size a) as [p a']. simpl.
      by rewrite ?slot_after_write, ?decide_False.
  - destruct (slot t' w =? nullptr); simpl.
    + by rewrite ?slot_after_write, ?decide_False.
    + destruct (arenas w !! slot t' w) as [a|]; simpl; [|done].
      by rewrite ?slot_after_write, ?decide_False.
Qed.

End Compositions.

(** * The STARBOARD key *)

Section StarboardKey.
Context {T : Type} `{!Starboard.SbThread T}.
Import Starboard.
Implicit Types (st : Starboard.state T) (t : nat).

(** X11 — Under STARBOARD the key is created once.  After one successful
    [EnsureThreadLocalKeyInited], the once-flag is set and the key is valid;
    a later [EnsureThreadLocalKeyInited] from any thread changes nothing;
    and a later [set_thread_local_memory_pool] from any thread cannot fail
    its assertions, keeps the key, and does exactly one
    [SbThreadSetLocalValue] under that key. *)
Theorem key_created_once t st st' :
  EnsureThreadLocalKeyInited t st = Some st' →
  s_once_flag st' = true ∧
  SbThreadIsValidLocalKey (s_thread_local_key st') = true ∧
  (∀ t', EnsureThreadLocalKeyInited t' st' = Some st') ∧
  (∀ t' v,
     Starboard.set_thread_local_memory_pool t' v st' =
       Some (State true (s_thread_local_key st')
                   (SbThreadSetLocalValue (s_thread_local_key st') v t'
                                          (storage st')))).
Proof.
  intros He.
  assert (Hfv : s_once_flag st' = true ∧
                SbThreadIsValidLocalKey (s_thread_local_key st') = true).
  { revert He. unfold EnsureThreadLocalKeyInited.
    destruct (s_once_flag st) eqn:Hf; simpl.
    - destruct (SbThreadIsValidLocalKey (s_thread_local_key st)) eqn:Hv;
        [|discriminate].
      by intros [= <-].
    - unfold InitThreadLocalKey. simpl.
      destruct (SbThreadCreateLocalKey (storage st)) as [key σ].
      destruct (SbThreadIsValidLocalKey key) eqn:Hv; simpl; [|discriminate].
      rewrite Hv. by intros [= <-]. }
  destruct Hfv as [Hf Hv].
  assert (Hagain : ∀ t', EnsureThreadLocalKeyInited t' st' = Some st').
  { intros t'. unfold EnsureThreadLocalKeyInited. rewrite Hf. simpl.
    by rewrite Hv. }
  split; [done|]. split; [done|]. split; [done|].
  intros t' v. unfold Starboard.set_thread_local_memory_pool.
  rewrite Hagain. simpl. by rewrite Hf.
Qed.

(** X12 — Under STARBOARD a write to the slot fails its assertion in two
    cases only: the key has not been created yet and Starboard hands out an
    invalid one, or the once-flag is set while the stored key is invalid. *)
Theorem set_fails_on_invalid_key t v st :
  Starboard.set_thread_local_memory_pool t v st = None ↔
  (s_once_flag st = false ∧
   SbThreadIsValidLocalKey (SbThreadCreateLocalKey (storage st)).1 = false) ∨
  (s_once_flag st = true ∧
   SbThreadIsValidLocalKey (s_thread_local_key st) = false).
Proof.
  unfold Starboard.set_thread_local_memory_pool, EnsureThreadLocalKeyInited,
    InitThreadLocalKey.
  destruct (s_once_flag st) eqn:Hf; simpl.
  - destruct (SbThreadIsValidLocalKey (s_thread_local_key st)) eqn:Hv; simpl.
    + split; [discriminate|]. intros [[? _]|[_ ?]]; discriminate.
    + split; [by right|done].
  - destruct (SbThreadCreateLocalKey (storage st)) as [key σ]. simpl.
    destruct (SbThreadIsValidLocalKey key) eqn:Hv; simpl.
    + rewrite Hv. simpl. split; [discriminate|].
      intros [[_ ?]|[? _]]; discriminate.
    + split; [by left|done].
Qed.

End StarboardKey.

(** * The two variants of the slot agree *)

Section StarboardRefinement.
Context {T A S : Type} `{!Starboard.SbThread T}
        `{!MemoryPool A} `{!SystemAllocator S}.
Import Starboard.
Implicit Types (st : Starboard.state T) (w : world A S) (t : nat).

(** What the accessors rely on from Starboard, as above. *)
Hypothesis get_invalid : ∀ key t (σ : T),
  SbThreadIsValidLocalKey key = false → SbThreadGetLocalValue key t σ = nullptr.
Hypothesis get_created : ∀ (σ : T) key σ' t,
  SbThreadCreateLocalKey σ = (key, σ') → SbThreadIsValidLocalKey key = true →
  SbThreadGetLocalValue key t σ' = nullptr.
Hypothesis get_set_same : ∀ key v t (σ : T),
  SbThreadIsValidLocalKey key = true →
  SbThreadGetLocalValue key t (SbThreadSetLocalValue key v t σ) = v.
Hypothesis get_set_other : ∀ key v t t' (σ : T),
  t' ≠ t →
  SbThreadGetLocalValue key t' (SbThreadSetLocalValue key v t σ) =
  SbThreadGetLocalValue key t' σ.

(** X13 — The STARBOARD accessors and the [thread_local] accessors hold the
    same slot.  Start from a STARBOARD state and a [thread_local] state in
    which every thread reads the same pointer; apply the same series of
    writes to both.  If the STARBOARD series passes its assertions, then on
    both sides every thread again reads the same pointer. *)
Theorem starboard_agrees_with_thread_local ws st st' w :
  key_pending st →
  (∀ t, Starboard.get_thread_local_memory_pool t st = slot t w) →
  Starboard.write_all ws st = Some st' →
  ∃ w', SkSL.write_all ws w = Done () w' ∧
        ∀ t, Starboard.get_thread_local_memory_pool t st' = slot t w'.
Proof.
  revert st w. induction ws as [|[t v] ws IH]; intros st w Hp Hag; simpl.
  - intros [= <-]. exists w. done.
  - destruct (Starboard.set_thread_local_memory_pool t v st) as [st1|] eqn:Hs;
      simpl; [|discriminate].
    intros Hall.
    destruct (starboard_set get_invalid get_created get_set_same
                get_set_other t v st st1 Hp Hs) as (Hp1 & Hsame & Hoth).
    unfold mbind, M_bind, bind, SkSL.set_thread_local_memory_pool.
    apply (IH st1); [done| |done].
    intros t'. unfold slot; simpl.
    destruct (decide (t' = t)) as [->|Hne].
    + by rewrite lookup_insert_eq.
    + rewrite lookup_insert_ne by done. rewrite (Hoth t' Hne). apply Hag.
Qed.

End StarboardRefinement.

(** * Concrete runs *)

Import Reference.

Lemma run_create : run 1 ReqCreate w0 = Done (RepPool h1) w_created.
Proof. vm_compute. reflexivity. Qed.

Lemma run_attach : run 1 (ReqAttach h1) w_created = Done RepUnit w_attached.
Proof. vm_compute. reflexivity. Qed.

Lemma h1_live_created : handle_live w_created h1.
Proof. exists pool0. reflexivity. Qed.

Lemma h1_live_attached : handle_live w_attached h1.
Proof. exists pool0. reflexivity. Qed.

Lemma reachable_w_created : reachable w_created.
Proof.
  apply (reachable_step w0 1 ReqCreate (RepPool h1)).
  - apply reachable_init.
  - exact I.
  - exact run_create.
Qed.

Lemma reachable_w_attached : reachable w_attached.
Proof.
  apply (reachable_step w_created 1 (ReqAttach h1) RepUnit).
  - exact reachable_w_created.
  - exact h1_live_created.
  - exact run_attach.
Qed.

(** The reference storage meets what the STARBOARD accessors rely on. *)
Lemma table_get_invalid key t (σ : sb_storage) :
  Starboard.SbThreadIsValidLocalKey key = false →
  Starboard.SbThreadGetLocalValue key t σ = nullptr.
Proof. simpl. intros Hk%negb_false_iff. by rewrite Hk. Qed.

Lemma table_get_created (σ : sb_storage) key σ' t :
  Starboard.SbThreadCreateLocalKey σ = (key, σ') →
  Starboard.SbThreadIsValidLocalKey key = true →
  Starboard.SbThreadGetLocalValue key t σ' = nullptr.
Proof.
  simpl. intros [= <- <-] _. simpl.
  rewrite (proj2 (N.eqb_neq _ _)) by lia.
  rewrite (proj2 (map_lookup_filter_None _ _ _)); [done|].
  right. intros x _. simpl. tauto.
Qed.

Lemma table_get_set_same key v t (σ : sb_storage) :
  Starboard.SbThreadIsValidLocalKey key = true →
  Starboard.SbThreadGetLocalValue key t
    (Starboard.SbThreadSetLocalValue key v t σ) = v.
Proof.
  simpl. intros Hk%negb_true_iff. rewrite Hk. simpl.
  by rewrite lookup_insert_eq.
Qed.

Lemma table_get_set_other key v t t' (σ : sb_storage) :
  t' ≠ t →
  Starboard.SbThreadGetLocalValue key t'
    (Starboard.SbThreadSetLocalValue key v t σ) =
  Starboard.SbThreadGetLocalValue key t' σ.
Proof.
  intros Hne. simpl. destruct (key =? 0); [done|]. simpl.
  rewrite lookup_insert_ne; [done|]. congruence.
Qed.

(** The first write of thread 1 creates the key; thread 1 reads its value
    back and thread 2 still reads null. *)
Example starboard_run :
  ∃ st',
    Starboard.set_thread_local_memory_pool 1 7
      (Starboard.start (SbStorage 0 ∅)) = Some st' ∧
    Starboard.get_thread_local_memory_pool 1 st' = 7 ∧
    Starboard.get_thread_local_memory_pool 2 st' = nullptr.
Proof.
  eexists. split; [vm_compute; reflexivity|].
  assert (Hne : 2%nat ≠ 1%nat) by discriminate.
  assert (Hp : Starboard.key_pending (Starboard.start (SbStorage 0 ∅)))
    by (intros _; reflexivity).
  destruct (starboard_set table_get_invalid table_get_created
              table_get_set_same table_get_set_other 1 7
              (Starboard.start (SbStorage 0 ∅)) _ Hp eq_refl)
    as (_ & Hs & Ho).
  split; [exact Hs|exact (Ho 2%nat Hne)].
Qed.

(** The whole lifecycle on one thread: create, attach, allocate, free,
    detach, destroy.  No assertion fires, the pool is empty when it is
    destroyed, and the slot ends unbound. *)
Example lifecycle_run :
  ∃ w', (h ← Pool_Create;
         Pool_attachToThread 1 h;;
         p ← Pool_AllocMemory 1 16;
         Pool_FreeMemory 1 p;;
         Pool_detachFromThread 1 h;;
         Pool_dtor 1 h) w0 = Done () w' ∧
        slot 1 w' = nullptr ∧ arenas w' = ∅ ∧
        trace w' =
          [EvNew 8 1048576; EvMake 65536 32768 1; EvSlotWrite 1 1;
           EvArena 1 (Allocate 16); EvArena 1 (Release 4096);
           EvArena 1 ResetScratchSpace; EvSlotWrite 1 0;
           EvArena 1 ReportLeaks; EvArena 1 IsEmpty; EvArenaDelete 1].
Proof. eexists. split; [vm_compute; reflexivity|]. by vm_compute. Qed.

(** A block that is never freed: the destructor reports, finds the pool
    not empty, and the assertion is fatal. *)
Example leak_run :
  ∃ w', (h ← Pool_Create;
         Pool_attachToThread 1 h;;
         p ← Pool_AllocMemory 1 16;
         Pool_detachFromThread 1 h;;
         Pool_dtor 1 h) w0 = Fatal "fMemPool->isEmpty()" w' ∧
        is_Some (arenas w' !! 1).
Proof.
  eexists. split; [vm_compute; reflexivity|].
  eexists. vm_compute. reflexivity.
Qed.

(** ** Routing, on the run above *)

(** Thread 1 has the pool at address 1 bound: its allocation of 16 bytes is
    the pool's (block 4096).  At program start nothing is bound: the block
    comes from the system allocator (1048576). *)
Lemma AllocMemory_routing_witness :
  slot 1 w_attached ≠ nullptr ∧
  arenas w_attached !! slot 1 w_attached = Some pool0 ∧
  Pool_AllocMemory 1 16 w_attached =
    Done 4096
         (World (sMemPool w_attached)
                (<[1 := (allocate 16 pool0).2]> (arenas w_attached))
                (sysheap w_attached)
                (trace w_attached ++ [EvArena 1 (Allocate 16)])) ∧
  slot 1 w0 = nullptr ∧
  ∃ w', Pool_AllocMemory 1 16 w0 = Done 1048576 w' ∧
        arenas w' = arenas w0 ∧
        filter is_arena_event (trace w') = filter is_arena_event (trace w0).
Proof.
  assert (Hb : slot 1 w_attached ≠ nullptr) by (vm_compute; discriminate).
  assert (Ha : arenas w_attached !! slot 1 w_attached = Some pool0)
    by reflexivity.
  split; [exact Hb|]. split; [exact Ha|]. split.
  - exact (proj1 (AllocMemory_routing 1 16 w_attached) pool0 Hb Ha).
  - split; [reflexivity|].
    destruct (proj2 (AllocMemory_routing 1 16 w0) eq_refl)
      as (w' & Hw' & Har & _ & _ & Hf).
    exists w'. split; [exact Hw'|]. split; [exact Har|exact Hf].
Defined.

Lemma FreeMemory_routing_witness :
  slot 1 w_attached ≠ nullptr ∧
  arenas w_attached !! slot 1 w_attached = Some pool0 ∧
  Pool_FreeMemory 1 4096 w_attached =
    Done ()
         (World (sMemPool w_attached)
                (<[1 := release 4096 pool0]> (arenas w_attached))
                (sysheap w_attached)
                (trace w_attached ++ [EvArena 1 (Release 4096)])) ∧
  slot 1 w0 = nullptr ∧
  ∃ w', Pool_FreeMemory 1 1048576 w0 = Done () w' ∧
        arenas w' = arenas w0 ∧
        filter is_arena_event (trace w') = filter is_arena_event (trace w0).
Proof.
  assert (Hb : slot 1 w_attached ≠ nullptr) by (vm_compute; discriminate).
  assert (Ha : arenas w_attached !! slot 1 w_attached = Some pool0)
    by reflexivity.
  split; [exact Hb|]. split; [exact Ha|]. split.
  - exact (proj1 (FreeMemory_routing 1 4096 w_attached) pool0 Hb Ha).
  - split; [reflexivity|].
    destruct (proj2 (FreeMemory_routing 1 1048576 w0) eq_refl)
      as (w' & Hw' & Har & _ & _ & Hf).
    exists w'. split; [exact Hw'|]. split; [exact Har|exact Hf].
Defined.

(** ** Attach and detach, on the run above *)

Lemma attachToThread_precondition_witness :
  slot 1 w_created = nullptr ∧
  (∃ w', Pool_attachToThread 1 h1 w_created = Done () w' ∧
         slot 1 w' = fMemPool h1) ∧
  slot 1 w_attached ≠ nullptr ∧
  ∃ msg, Pool_attachToThread 1 h1 w_attached = Fatal msg w_attached.
Proof.
  split; [reflexivity|]. split.
  - destruct (proj1 (attachToThread_precondition 1 h1 w_created) eq_refl)
      as (w' & Hw' & Hs & _).
    exists w'. split; [exact Hw'|exact Hs].
  - assert (Hb : slot 1 w_attached ≠ nullptr) by (vm_compute; discriminate).
    split; [exact Hb|].
    exact (proj2 (attachToThread_precondition 1 h1 w_attached) Hb).
Defined.

Lemma detachFromThread_order_witness :
  slot 1 w_created ≠ fMemPool h1 ∧
  (∃ msg, Pool_detachFromThread 1 h1 w_created = Fatal msg w_created) ∧
  slot 1 w_attached = fMemPool h1 ∧
  arenas w_attached !! fMemPool h1 = Some pool0 ∧
  ∃ w', Pool_detachFromThread 1 h1 w_attached = Done () w' ∧
        trace w' = trace w_attached ++
                   [EvArena 1 ResetScratchSpace; EvSlotWrite 1 nullptr] ∧
        slot 1 w' = nullptr.
Proof.
  assert (Hne : slot 1 w_created ≠ fMemPool h1) by (vm_compute; discriminate).
  split; [exact Hne|]. split.
  - exact (proj1 (detachFromThread_order 1 h1 w_created) Hne).
  - split; [reflexivity|]. split; [reflexivity|].
    destruct (proj2 (detachFromThread_order 1 h1 w_attached)
                pool0 eq_refl eq_refl) as (w' & Hw' & Ht & Hs & _).
    exists w'. split; [exact Hw'|]. split; [exact Ht|exact Hs].
Defined.

(** ** Destruction, on the run above *)

(** Thread 1 destroys the handle it still has attached; the pool is empty,
    so the destructor completes. *)
Lemma dtor_reports_and_checks_witness :
  arenas w_attached !! fMemPool h1 = Some pool0 ∧
  ∃ w' pre post,
    final (Pool_dtor 1 h1 w_attached) = Some w' ∧
    trace w' =
      trace w_attached ++ pre ++
      [EvArena 1 ReportLeaks; EvArena 1 IsEmpty] ++ post ∧
    pre = [EvDebugFail "SkSL pool is being destroyed while it is still attached to the thread";
           EvSlotWrite 1 nullptr] ∧
    slot 1 w' = nullptr ∧
    Pool_dtor 1 h1 w_attached = Done () w'.
Proof.
  split; [reflexivity|].
  destruct (dtor_reports_and_checks 1 h1 w_attached pool0 eq_refl)
    as (w' & pre & post & Hfin & Htr & Hatt & _ & Hemp & _).
  destruct (Hatt eq_refl) as [Hpre Hs].
  destruct (Hemp eq_refl) as (Hd & _ & _).
  exists w', pre, post.
  split; [exact Hfin|]. split; [exact Htr|]. split; [exact Hpre|].
  split; [exact Hs|exact Hd].
Defined.

Lemma dtor_slot_frame_witness :
  arenas w_shared !! fMemPool h1 = Some pool0 ∧
  ∃ w', final (Pool_dtor 1 h1 w_shared) = Some w' ∧
        slot 1 w' = nullptr ∧ slot 2 w' = fMemPool h1.
Proof.
  split; [reflexivity|].
  destruct (dtor_slot_frame 1 h1 w_shared pool0 eq_refl)
    as (w' & Hfin & Hclr & _ & _ & Hoth).
  exists w'. split; [exact Hfin|]. split; [exact (Hclr eq_refl)|].
  assert (Hne : 2%nat ≠ 1%nat) by discriminate.
  rewrite (Hoth 2%nat Hne). reflexivity.
Defined.

(** ** Creation and the read-only calls *)

Lemma Create_detached_witness :
  (∀ t, slot t w0 = nullptr ∨ is_Some (arenas w0 !! slot t w0)) ∧
  ∃ pool w', Pool_Create w0 = Done pool w' ∧
             arenas w' = <[fMemPool pool := Make 65536 32768]> (arenas w0) ∧
             trace w' = trace w0 ++
                        [EvNew 8 1048576; EvMake 65536 32768 (fMemPool pool)] ∧
             sysheap w' = SysHeap 8 [1048576] ∧
             ∀ t, slot t w' ≠ fMemPool pool.
Proof.
  assert (H0 : ∀ t, slot t w0 = nullptr ∨ is_Some (arenas w0 !! slot t w0))
    by (intros t; left; reflexivity).
  split; [exact H0|].
  destruct (Create_detached w0)
    as (pool & w' & Hc & _ & _ & Har & Htr & _ & Hsys & Hdet).
  exists pool, w'. split; [exact Hc|]. split; [exact Har|].
  split; [exact Htr|]. split; [exact Hsys|exact (Hdet H0)].
Defined.

Lemma static_calls_keep_slot_witness :
  (∃ w', final (Pool_AllocMemory 1 16 w_attached) = Some w' ∧
         sMemPool w' = sMemPool w_attached) ∧
  (∃ w', final (Pool_FreeMemory 1 4096 w_attached) = Some w' ∧
         sMemPool w' = sMemPool w_attached) ∧
  Pool_IsAttached 1 w_attached = Done true w_attached.
Proof.
  destruct (static_calls_keep_slot 1 w_attached) as (Hal & Hfr & His).
  split; [|split].
  - eexists. split; [reflexivity|].
    exact (proj1 (proj1 (Hal 16) _ eq_refl)).
  - eexists. split; [reflexivity|].
    exact (proj1 (proj1 (Hfr 4096) _ eq_refl)).
  - exact His.
Defined.

(** ** Exclusivity *)

(** C6, counterexample — the handle [h1] is attached to thread 1 (state
    [w_attached], reached by [Create] and [attachToThread] on thread 1).
    [h1.attachToThread()] issued by thread 2 is not fatal: it returns, and
    afterwards the slots of thread 1 and of thread 2 both hold the pool of
    [h1]. *)
Lemma attach_from_second_thread :
  reachable w_attached ∧
  handle_live w_attached h1 ∧
  slot 1 w_attached = fMemPool h1 ∧
  Pool_attachToThread 2 h1 w_attached = Done () w_shared ∧
  (¬ ∃ msg w', Pool_attachToThread 2 h1 w_attached = Fatal msg w') ∧
  slot 1 w_shared = fMemPool h1 ∧
  slot 2 w_shared = fMemPool h1.
Proof.
  assert (Hrun : Pool_attachToThread 2 h1 w_attached = Done () w_shared)
    by (vm_compute; reflexivity).
  split; [exact reachable_w_attached|].
  split; [exact h1_live_attached|].
  split; [reflexivity|]. split; [exact Hrun|].
  split; [|split; reflexivity].
  intros (msg & w' & Hf). rewrite Hrun in Hf. discriminate.
Qed.

Lemma attach_checks_calling_thread_witness :
  reachable w_attached ∧ handle_live w_attached h1 ∧
  slot 1 w_attached = fMemPool h1 ∧
  (∃ msg, Pool_attachToThread 1 h1 w_attached = Fatal msg w_attached) ∧
  slot 2 w_attached = nullptr ∧
  ∃ w', Pool_attachToThread 2 h1 w_attached = Done () w' ∧
        slot 2 w' = fMemPool h1 ∧ slot 1 w' = slot 1 w_attached.
Proof.
  destruct (attach_checks_calling_thread w_attached 1 h1
              reachable_w_attached h1_live_attached) as (Hsame & _ & _).
  destruct (attach_checks_calling_thread w_attached 2 h1
              reachable_w_attached h1_live_attached) as (_ & _ & Hfree).
  split; [exact reachable_w_attached|].
  split; [exact h1_live_attached|].
  split; [reflexivity|]. split; [exact (Hsame eq_refl)|].
  split; [reflexivity|].
  destruct (Hfree eq_refl) as (w' & Hw' & Hs & Hoth).
  assert (Hne : 1%nat ≠ 2%nat) by discriminate.
  exists w'. split; [exact Hw'|]. split; [exact Hs|exact (Hoth 1%nat Hne)].
Defined.

(** ** Who writes the slot *)

(** C7, counterexample — thread 1 destroys the handle [h1] while it is
    attached to thread 1.  The request is neither an attach nor a detach,
    it returns, and the slot of thread 1 goes from the pool of [h1] to
    [nullptr]. *)
Lemma destructor_writes_slot :
  reachable w_attached ∧
  request_ok w_attached (ReqDestroy h1) ∧
  run 1 (ReqDestroy h1) w_attached = Done RepUnit w_destroyed ∧
  slot 1 w_attached = fMemPool h1 ∧
  fMemPool h1 ≠ nullptr ∧
  slot 1 w_destroyed = nullptr.
Proof.
  split; [exact reachable_w_attached|].
  split; [exact h1_live_attached|].
  split; [vm_compute; reflexivity|].
  split; [reflexivity|]. split; [discriminate|reflexivity].
Qed.

Lemma slot_lifecycle_witness :
  reachable w_created ∧ request_ok w_created (ReqAttach h1) ∧
  final (run 1 (ReqAttach h1) w_created) = Some w_attached ∧
  slot 1 w_attached ≠ slot 1 w_created ∧
  ∃ h, fMemPool h ≠ nullptr ∧
    ((ReqAttach h1 = ReqAttach h ∧ slot 1 w_created = nullptr ∧
        slot 1 w_attached = fMemPool h) ∨
     (ReqAttach h1 = ReqDetach h ∧ slot 1 w_created = fMemPool h ∧
        slot 1 w_attached = nullptr) ∨
     (ReqAttach h1 = ReqDestroy h ∧ slot 1 w_created = fMemPool h ∧
        slot 1 w_attached = nullptr)).
Proof.
  assert (Hfin : final (run 1 (ReqAttach h1) w_created) = Some w_attached)
    by (vm_compute; reflexivity).
  assert (Hchg : slot 1 w_attached ≠ slot 1 w_created)
    by (vm_compute; discriminate).
  split; [exact reachable_w_created|].
  split; [exact h1_live_created|].
  split; [exact Hfin|]. split; [exact Hchg|].
  exact (proj2 (proj2 slot_lifecycle w_created 1%nat (ReqAttach h1)
                  w_attached 1%nat reachable_w_created h1_live_created
                  Hfin Hchg)).
Defined.

(** ** Compositions, on the run above *)

Lemma attach_detach_roundtrip_witness :
  slot 1 w_created = nullptr ∧
  arenas w_created !! fMemPool h1 = Some pool0 ∧
  ∃ w', (Pool_attachToThread 1 h1;; Pool_detachFromThread 1 h1) w_created
          = Done () w' ∧
        (∀ t', slot t' w' = slot t' w_created) ∧
        trace w' = trace w_created ++
                   [EvSlotWrite 1 1; EvArena 1 ResetScratchSpace;
                    EvSlotWrite 1 nullptr].
Proof.
  split; [reflexivity|]. split; [reflexivity|].
  destruct (attach_detach_roundtrip 1 h1 w_created pool0 eq_refl eq_refl)
    as (w' & Hrun & Hs & _ & _ & Htr).
  exists w'. split; [exact Hrun|]. split; [exact Hs|exact Htr].
Defined.

Lemma IsAttached_follows_binding_witness :
  reachable w_created ∧ handle_live w_created h1 ∧
  slot 1 w_created = nullptr ∧
  (∃ w', Pool_attachToThread 1 h1 w_created = Done () w' ∧
         Pool_IsAttached 1 w' = Done true w') ∧
  reachable w_attached ∧ handle_live w_attached h1 ∧
  slot 1 w_attached = fMemPool h1 ∧
  (∃ w', Pool_detachFromThread 1 h1 w_attached = Done () w' ∧
         Pool_IsAttached 1 w' = Done false w').
Proof.
  split; [exact reachable_w_created|]. split; [exact h1_live_created|].
  split; [reflexivity|]. split.
  - destruct (proj1 (IsAttached_follows_binding w_created 1 h1
                       reachable_w_created h1_live_created) eq_refl)
      as (w' & Hrun & His & _).
    exists w'. split; [exact Hrun|exact His].
  - split; [exact reachable_w_attached|]. split; [exact h1_live_attached|].
    split; [reflexivity|].
    destruct (proj2 (IsAttached_follows_binding w_attached 1 h1
                       reachable_w_attached h1_live_attached) eq_refl)
      as (w' & Hrun & His & _).
    exists w'. split; [exact Hrun|exact His].
Defined.

Lemma second_call_is_fatal_witness :
  reachable w_created ∧ handle_live w_created h1 ∧
  slot 1 w_created = nullptr ∧
  (∃ msg w1,
     (Pool_attachToThread 1 h1;; Pool_attachToThread 1 h1) w_created
       = Fatal msg w1 ∧ slot 1 w1 = fMemPool h1) ∧
  reachable w_attached ∧ handle_live w_attached h1 ∧
  slot 1 w_attached = fMemPool h1 ∧
  (∃ msg w1,
     (Pool_detachFromThread 1 h1;; Pool_detachFromThread 1 h1) w_attached
       = Fatal msg w1 ∧ slot 1 w1 = nullptr).
Proof.
  split; [exact reachable_w_created|]. split; [exact h1_live_created|].
  split; [reflexivity|]. split.
  - exact (proj1 (second_call_is_fatal w_created 1 h1
                    reachable_w_created h1_live_created) eq_refl h1).
  - split; [exact reachable_w_attached|]. split; [exact h1_live_attached|].
    split; [reflexivity|].
    exact (proj2 (second_call_is_fatal w_attached 1 h1
                    reachable_w_attached h1_live_attached) eq_refl).
Defined.

Lemma alloc_free_one_route_witness :
  slot 1 w_attached ≠ nullptr ∧
  arenas w_attached !! slot 1 w_attached = Some pool0 ∧
  (∃ w', (p ← Pool_AllocMemory 1 16; Pool_FreeMemory 1 p) w_attached
           = Done () w' ∧
         sysheap w' = sysheap w_attached ∧
         trace w' = trace w_attached ++
                    [EvArena 1 (Allocate 16); EvArena 1 (Release 4096)]) ∧
  slot 1 w0 = nullptr ∧
  (∃ w', (p ← Pool_AllocMemory 1 16; Pool_FreeMemory 1 p) w0 = Done () w' ∧
         arenas w' = arenas w0 ∧
         trace w' = trace w0 ++ [EvNew 16 1048576; EvDelete 1048576]).
Proof.
  assert (Hb : slot 1 w_attached ≠ nullptr) by (vm_compute; discriminate).
  assert (Ha : arenas w_attached !! slot 1 w_attached = Some pool0)
    by reflexivity.
  split; [exact Hb|]. split; [exact Ha|]. split.
  - destruct (proj1 (alloc_free_one_route 1 16 w_attached) pool0 Hb Ha)
      as (w' & Hrun & _ & Hsys & Htr).
    exists w'. split; [exact Hrun|]. split; [exact Hsys|exact Htr].
  - split; [reflexivity|].
    destruct (proj2 (alloc_free_one_route 1 16 w0) eq_refl)
      as (w' & Hrun & Har & _ & Htr).
    exists w'. split; [exact Hrun|]. split; [exact Har|exact Htr].
Defined.

Lemma free_after_detach_bypasses_pool_witness :
  slot 1 w_attached = fMemPool h1 ∧ fMemPool h1 ≠ nullptr ∧
  arenas w_attached !! fMemPool h1 = Some pool0 ∧
  ∃ w', (p ← Pool_AllocMemory 1 16;
         Pool_detachFromThread 1 h1;;
         Pool_FreeMemory 1 p) w_attached = Done () w' ∧
        trace w' = trace w_attached ++
                   [EvArena 1 (Allocate 16); EvArena 1 ResetScratchSpace;
                    EvSlotWrite 1 nullptr; EvDelete 4096].
Proof.
  assert (Hnn : fMemPool h1 ≠ nullptr) by discriminate.
  split; [reflexivity|]. split; [exact Hnn|]. split; [reflexivity|].
  destruct (free_after_detach_bypasses_pool 1 h1 16 w_attached pool0
              eq_refl Hnn eq_refl) as (w' & Hrun & _ & _ & Htr).
  exists w'. split; [exact Hrun|exact Htr].
Defined.

Lemma dtor_elsewhere_leaves_dangling_witness :
  1%nat ≠ 2%nat ∧ slot 1 w_attached = fMemPool h1 ∧ fMemPool h1 ≠ nullptr ∧
  slot 2 w_attached ≠ fMemPool h1 ∧
  arenas w_attached !! fMemPool h1 = Some pool0 ∧
  isEmpty (reportLeaks pool0) = true ∧
  ∃ w', Pool_dtor 2 h1 w_attached = Done () w' ∧
        slot 1 w' = fMemPool h1 ∧
        arenas w' !! fMemPool h1 = None ∧
        Pool_AllocMemory 1 16 w' = Undefined.
Proof.
  assert (Hne : 1%nat ≠ 2%nat) by discriminate.
  assert (Hnn : fMemPool h1 ≠ nullptr) by discriminate.
  assert (Hoth : slot 2 w_attached ≠ fMemPool h1)
    by (vm_compute; discriminate).
  split; [exact Hne|]. split; [reflexivity|]. split; [exact Hnn|].
  split; [exact Hoth|]. split; [reflexivity|]. split; [reflexivity|].
  assert (Hemp : isEmpty (reportLeaks pool0) = true) by reflexivity.
  destruct (dtor_elsewhere_leaves_dangling 1 2 h1 w_attached pool0
              Hne eq_refl Hnn Hoth eq_refl Hemp)
    as (w' & Hrun & _ & Hs & Har & _ & Hal & _).
  exists w'. split; [exact Hrun|]. split; [exact Hs|].
  split; [exact Har|exact (Hal 16)].
Defined.

(** ** Invariants, on the run above *)

Lemma slot_writes_alternate_witness :
  reachable w_attached ∧
  alternates true (slot_writes 1 (trace w_attached)) = true ∧
  slot 1 w_attached = default nullptr (last (slot_writes 1 (trace w_attached))).
Proof.
  split; [exact reachable_w_attached|].
  exact (slot_writes_alternate w_attached 1 reachable_w_attached).
Defined.

Lemma live_pools_frame_witness :
  final (run 1 ReqCreate w0) = Some w_created ∧
  ∃ p, arenas w0 !! p = None ∧
       dom (arenas w_created) = {[p]} ∪ dom (arenas w0).
Proof.
  assert (Hfin : final (run 1 ReqCreate w0) = Some w_created)
    by (vm_compute; reflexivity).
  split; [exact Hfin|].
  exact (live_pools_frame 1 ReqCreate w0 w_created Hfin).
Defined.

Lemma static_traffic_frame_witness :
  Forall (λ tc : nat * request, is_static_request tc.2 = true)
         [(1%nat, ReqAllocMemory 16); (2%nat, ReqAllocMemory 8);
          (1%nat, ReqIsAttached); (2%nat, ReqFreeMemory 1048584)] ∧
  ∃ w', final (run_all [(1%nat, ReqAllocMemory 16); (2%nat, ReqAllocMemory 8);
                        (1%nat, ReqIsAttached);
                        (2%nat, ReqFreeMemory 1048584)] w_attached)
          = Some w' ∧
        sMemPool w' = sMemPool w_attached ∧
        dom (arenas w') = dom (arenas w_attached).
Proof.
  assert (Hcs : Forall (λ tc : nat * request, is_static_request tc.2 = true)
                  [(1%nat, ReqAllocMemory 16); (2%nat, ReqAllocMemory 8);
                   (1%nat, ReqIsAttached); (2%nat, ReqFreeMemory 1048584)])
    by (repeat constructor).
  split; [exact Hcs|].
  destruct (final (run_all _ w_attached)) as [w'|] eqn:Hfin;
    [|vm_compute in Hfin; discriminate].
  exists w'. split; [reflexivity|].
  destruct (static_traffic_frame _ w_attached w' Hcs Hfin) as (Hm & Hd & _).
  split; [exact Hm|exact Hd].
Defined.

Lemma memory_traffic_routing_witness :
  (Forall (λ tc : nat * request, tc.1 = 1%nat ∧ is_memory_request tc.2 = true)
          [(1%nat, ReqAllocMemory 16); (1%nat, ReqAllocMemory 8);
           (1%nat, ReqFreeMemory 4096)] ∧
   slot 1 w_attached ≠ nullptr ∧
   is_Some (arenas w_attached !! slot 1 w_attached) ∧
   ∃ rs w',
     run_all [(1%nat, ReqAllocMemory 16); (1%nat, ReqAllocMemory 8);
              (1%nat, ReqFreeMemory 4096)] w_attached = Done rs w' ∧
     rs = [RepPtr 4096; RepPtr 4112; RepUnit] ∧
     sMemPool w' = sMemPool w_attached ∧
     sysheap w' = sysheap w_attached ∧
     ∃ es, trace w' = trace w_attached ++ es ∧
           Forall (λ e, ∃ call, e = EvArena (slot 1 w_attached) call) es) ∧
  (Forall (λ tc : nat * request, tc.1 = 1%nat ∧ is_memory_request tc.2 = true)
          [(1%nat, ReqAllocMemory 16); (1%nat, ReqAllocMemory 8);
           (1%nat, ReqFreeMemory 1048576)] ∧
   slot 1 w0 = nullptr ∧
   ∃ rs w',
     run_all [(1%nat, ReqAllocMemory 16); (1%nat, ReqAllocMemory 8);
              (1%nat, ReqFreeMemory 1048576)] w0 = Done rs w' ∧
     rs = [RepPtr 1048576; RepPtr 1048592; RepUnit] ∧
     arenas w' = arenas w0 ∧
     ∃ es, trace w' = trace w0 ++ es ∧
           Forall (λ e, is_arena_event e = false) es).
Proof.
  split.
  - assert (Hcs : Forall (λ tc : nat * request,
                            tc.1 = 1%nat ∧ is_memory_request tc.2 = true)
                    [(1%nat, ReqAllocMemory 16); (1%nat, ReqAllocMemory 8);
                     (1%nat, ReqFreeMemory 4096)])
      by (repeat constructor).
    assert (Hb : slot 1 w_attached ≠ nullptr) by (vm_compute; discriminate).
    assert (Ha : is_Some (arenas w_attached !! slot 1 w_attached))
      by (exists pool0; reflexivity).
    split; [exact Hcs|]. split; [exact Hb|]. split; [exact Ha|].
    destruct (run_all _ w_attached) as [rs w'| |] eqn:Hrun;
      [|vm_compute in Hrun; discriminate..].
    exists rs, w'. split; [reflexivity|].
    destruct (memory_traffic_routing 1 _ w_attached rs w' Hcs Hrun)
      as (_ & Hm & Hbound & _).
    destruct (Hbound Hb Ha) as (Hsys & _ & _ & Hes).
    split; [|split; [exact Hm|split; [exact Hsys|exact Hes]]].
    vm_compute in Hrun. injection Hrun as <- _. reflexivity.
  - assert (Hcs : Forall (λ tc : nat * request,
                            tc.1 = 1%nat ∧ is_memory_request tc.2 = true)
                    [(1%nat, ReqAllocMemory 16); (1%nat, ReqAllocMemory 8);
                     (1%nat, ReqFreeMemory 1048576)])
      by (repeat constructor).
    split; [exact Hcs|]. split; [reflexivity|].
    destruct (run_all _ w0) as [rs w'| |] eqn:Hrun;
      [|vm_compute in Hrun; discriminate..].
    exists rs, w'. split; [reflexivity|].
    destruct (memory_traffic_routing 1 _ w0 rs w' Hcs Hrun)
      as (_ & _ & _ & Hunbound).
    destruct (Hunbound eq_refl) as (Har & Hes).
    split; [|split; [exact Har|exact Hes]].
    vm_compute in Hrun. injection Hrun as <- _. reflexivity.
Defined.

(** ** The STARBOARD variant, on the reference storage *)

Lemma key_created_once_witness :
  ∃ st',
    Starboard.EnsureThreadLocalKeyInited 1 (Starboard.start (SbStorage 0 ∅))
      = Some st' ∧
    Starboard.s_once_flag st' = true ∧
    Starboard.EnsureThreadLocalKeyInited 2 st' = Some st' ∧
    ∃ st'', Starboard.set_thread_local_memory_pool 2 7 st' = Some st'' ∧
            Starboard.s_thread_local_key st'' =
              Starboard.s_thread_local_key st'.
Proof.
  destruct (Starboard.EnsureThreadLocalKeyInited 1
              (Starboard.start (SbStorage 0 ∅))) as [st'|] eqn:He;
    [|vm_compute in He; discriminate].
  exists st'. split; [reflexivity|].
  destruct (key_created_once 1 (Starboard.start (SbStorage 0 ∅)) st' He)
    as (Hf & _ & Hagain & Hset).
  split; [exact Hf|]. split; [exact (Hagain 2%nat)|].
  eexists. split; [exact (Hset 2%nat 7)|reflexivity].
Defined.

Lemma starboard_agrees_with_thread_local_witness :
  Starboard.key_pending (Starboard.start (SbStorage 0 ∅)) ∧
  (∀ t, Starboard.get_thread_local_memory_pool t
          (Starboard.start (SbStorage 0 ∅)) = slot t w0) ∧
  ∃ st' w',
    Starboard.write_all [(1%nat, 7); (2%nat, 9); (1%nat, 0)]
      (Starboard.start (SbStorage 0 ∅)) = Some st' ∧
    SkSL.write_all [(1%nat, 7); (2%nat, 9); (1%nat, 0)] w0 = Done () w' ∧
    ∀ t, Starboard.get_thread_local_memory_pool t st' = slot t w'.
Proof.
  assert (Hp : Starboard.key_pending (Starboard.start (SbStorage 0 ∅)))
    by (intros _; reflexivity).
  assert (Hag : ∀ t, Starboard.get_thread_local_memory_pool t
                       (Starboard.start (SbStorage 0 ∅)) = slot t w0)
    by (intros t; reflexivity).
  split; [exact Hp|]. split; [exact Hag|].
  destruct (Starboard.write_all [(1%nat, 7); (2%nat, 9); (1%nat, 0)]
              (Starboard.start (SbStorage 0 ∅))) as [st'|] eqn:Hws;
    [|vm_compute in Hws; discriminate].
  destruct (starboard_agrees_with_thread_local
              table_get_invalid table_get_created table_get_set_same
              table_get_set_other
              [(1%nat, 7); (2%nat, 9); (1%nat, 0)]
              (Starboard.start (SbStorage 0 ∅)) st' w0 Hp Hag Hws)
    as (w' & Hrun & Hagree).
  exists st', w'. split; [reflexivity|]. split; [exact Hrun|exact Hagree].
Defined.

(** ** Thread isolation, on the run above *)

Lemma attach_leaves_other_threads_alone_witness :
  2%nat ≠ 1%nat ∧ slot 1 w_created = nullptr ∧
  is_static_request (ReqAllocMemory 16) = true ∧
  ∃ w1, Pool_attachToThread 1 h1 w_created = Done () w1 ∧
        match run 2 (ReqAllocMemory 16) w_created,
              run 2 (ReqAllocMemory 16) w1 with
        | Done r w2, Done r' w2' =>
            r = r' ∧ arenas w2' = arenas w2 ∧ sysheap w2' = sysheap w2 ∧
            slot 2 w2' = slot 2 w2
        | Undefined, Undefined => True
        | _, _ => False
        end.
Proof.
  assert (Hne : 2%nat ≠ 1%nat) by discriminate.
  split; [exact Hne|]. split; [reflexivity|]. split; [reflexivity|].
  exact (attach_leaves_other_threads_alone 1 2 h1 (ReqAllocMemory 16)
           w_created Hne eq_refl eq_refl).
Defined.
